(** * kytos.core.interface: the tag pool, the link speed and the identity
      of an [Interface]

    A shallow embedding of [src/kytos/core/interface.py].  Python objects
    become records, mutating methods become functions that thread the
    [Interface] through, exceptions become a [result], and the numbers a
    speed can hold (Python [int] and [float]) become [Z] and a binary64
    value of [SpecFloat]. *)

From Stdlib Require Import ZArith List String Ascii Bool Lia.
From Stdlib Require Import Sorting.Sorted Sorting.Permutation.
From Stdlib Require Import DecimalString SpecFloat.
From Stdlib Require Decimal DecimalPos DecimalZ.
Import ListNotations.

#[local] Set Warnings "-register-all".
Open Scope string_scope.
Open Scope Z_scope.

(** ** Python results *)

Inductive exn := IndexError | ValueError | OverflowError | ZeroDivisionError.

Inductive result (A : Type) :=
| Ok (a : A)
| Raise (e : exn).
Arguments Ok {A} a.
Arguments Raise {A} e.

(** ** class TAGType(IntEnum) *)

Inductive TAGType := VLAN | VLAN_QINQ | MPLS.

Definition TAGType_value (t : TAGType) : Z :=
  match t with
  | VLAN => 1
  | VLAN_QINQ => 2
  | MPLS => 3
  end.

(** Members of an [IntEnum] compare as their integers. *)
Definition TAGType_eq (a b : TAGType) : bool :=
  TAGType_value a =? TAGType_value b.

(** ** class TAG *)

Record TAG := mkTAG { tag_type : TAGType; value : Z }.

(** [TAG.__eq__] *)
Definition TAG_eq (self other : TAG) : bool :=
  TAGType_eq (tag_type self) (tag_type other) && (value self =? value other).

(** ** Python numbers and values *)

Definition float := spec_float.

Inductive num :=
| PyInt (z : Z)
| PyFloat (f : float).

Inductive PyVal :=
| VNone
| VBool (b : bool)
| VNum (n : num)
| VStr (s : string)
| VTag (t : TAG)
| VDict (d : list (string * PyVal)).

(** ** The Switch collaborator

    [kytos.core.switch] is outside this file; an Interface reads the
    switch's [dpid] and [id], asks [is_connected()] and, when connected,
    reads [connection.protocol.version]. *)
Module Switch.
Record t := mk {
  dpid : string;
  id : string;
  is_connected : bool;
  connection_protocol_version : option Z
}.
End Switch.

(** ** class Interface *)

Record Interface := mkInterface {
  name : string;
  port_number : Z;
  switch : Switch.t;
  address : option string;
  state : option Z;
  features : option Z;
  nni : bool;
  stats : option (list (string * PyVal));
  _custom_speed : option num;
  available_tags : list TAG;
  metadata : list (string * PyVal)
}.

Definition set_available_tags (self : Interface) (l : list TAG) : Interface :=
  {| name := name self; port_number := port_number self;
     switch := switch self; address := address self; state := state self;
     features := features self; nni := nni self; stats := stats self;
     _custom_speed := _custom_speed self; available_tags := l;
     metadata := metadata self |}.

(** [range(start, stop)] *)
Definition range (start stop : Z) : list Z :=
  map (fun k => start + Z.of_nat k) (seq 0 (Z.to_nat (stop - start))).

(** [self.available_tags.append(tag)] *)
Definition append_tag (self : Interface) (tag : TAG) : Interface :=
  set_available_tags self (available_tags self ++ [tag]).

(** [Interface.__init__]: the attributes, then the loop that seeds the
    pool.  [super().__init__()] of [GenericEntity] leaves an empty
    metadata dictionary. *)
Definition Interface_init (name : string) (port_number : Z)
    (switch : Switch.t) (address : option string) (state features : option Z)
    (speed : option num) : Interface :=
  let self :=
    {| name := name; port_number := port_number; switch := switch;
       address := address; state := state; features := features;
       nni := false; stats := None; _custom_speed := speed;
       available_tags := []; metadata := [] |} in
  fold_left
    (fun self i =>
       let vlan := VLAN in
       let tag := mkTAG vlan i in
       append_tag self tag)
    (range 1 4096) self.

(** ** The tag pool

    A method is a function from the Interface to what it returns (or
    raises) and the Interface it leaves. *)

Definition M (A : Type) : Type := Interface -> result A * Interface.

(** [list.remove(x)]: drops the first item equal to [x]; [None] stands for
    the [ValueError] of a list without such an item. *)
Fixpoint list_remove (x : TAG) (l : list TAG) : option (list TAG) :=
  match l with
  | [] => None
  | item :: l' =>
      if TAG_eq item x then Some l'
      else match list_remove x l' with
           | Some r => Some (item :: r)
           | None => None
           end
  end.

(** [list.pop()]: the last item and the list without it; [None] stands for
    the [IndexError] of an empty list. *)
Fixpoint list_pop (l : list TAG) : option (TAG * list TAG) :=
  match l with
  | [] => None
  | x :: l' =>
      match list_pop l' with
      | None => Some (x, [])
      | Some (y, r) => Some (y, x :: r)
      end
  end.

(** [x in list] *)
Definition list_contains (x : TAG) (l : list TAG) : bool :=
  existsb (fun item => TAG_eq item x) l.

(** [Interface.use_tag]: the loop stops at the first available tag equal
    to [tag] and removes it. *)
Definition use_tag (tag : TAG) : M bool := fun self =>
  match find (fun available_tag => TAG_eq tag available_tag)
             (available_tags self) with
  | Some available_tag =>
      match list_remove available_tag (available_tags self) with
      | Some l => (Ok true, set_available_tags self l)
      | None => (Raise ValueError, self)
      end
  | None => (Ok false, self)
  end.

(** [Interface.is_tag_available] *)
Definition is_tag_available (tag : TAG) (self : Interface) : bool :=
  list_contains tag (available_tags self).

(** [Interface.get_next_available_tag]: [IndexError] is caught and turned
    into [False]. *)
Definition get_next_available_tag : M PyVal := fun self =>
  match list_pop (available_tags self) with
  | Some (tag, l) => (Ok (VTag tag), set_available_tags self l)
  | None => (Ok (VBool false), self)
  end.

(** [Interface.make_tag_available]: returns [None] after appending and
    [False] when the tag is already there. *)
Definition make_tag_available (tag : TAG) : M PyVal := fun self =>
  if negb (is_tag_available tag self)
  then (Ok VNone, append_tag self tag)
  else (Ok (VBool false), self).

(** ** Numbers

    A Python [float] is a binary64 value: [SpecFloat] at precision 53 and
    maximal exponent 1024. *)

Definition signed (s : bool) (m : positive) : Z :=
  if s then Z.neg m else Z.pos m.

(** [int / int]: the quotient of the two integers rounded once, to the
    nearest float ([long_true_divide]). *)
Definition int_truediv (a b : Z) : result float :=
  if b =? 0 then Raise ZeroDivisionError
  else if a =? 0 then Ok (S754_zero (b <? 0))
  else match SFdiv 53 1024 (S754_finite (a <? 0) (Z.to_pos (Z.abs a)) 0)
                           (S754_finite (b <? 0) (Z.to_pos (Z.abs b)) 0) with
       | S754_infinity _ => Raise OverflowError
       | q => Ok q
       end.

(** [float(int)] *)
Definition float_of_int (z : Z) : result float :=
  match binary_normalize 53 1024 z 0 false with
  | S754_infinity _ => Raise OverflowError
  | f => Ok f
  end.

(** [x * k] for an integer [k] *)
Definition num_mul (x : num) (k : Z) : result num :=
  match x with
  | PyInt z => Ok (PyInt (z * k))
  | PyFloat f =>
      match float_of_int k with
      | Ok fk => Ok (PyFloat (SFmul 53 1024 f fk))
      | Raise e => Raise e
      end
  end.

(** [x / k] for an integer [k] *)
Definition num_truediv (x : num) (k : Z) : result float :=
  match x with
  | PyInt z => int_truediv z k
  | PyFloat f =>
      match float_of_int k with
      | Ok fk => if k =? 0 then Raise ZeroDivisionError
                 else Ok (SFdiv 53 1024 f fk)
      | Raise e => Raise e
      end
  end.

(** A float against an integer: Python compares the two exact values. *)
Definition float_compare_int (x : float) (n : Z) : option comparison :=
  match x with
  | S754_nan => None
  | S754_infinity s => Some (if s then Lt else Gt)
  | S754_zero _ => Some (0 ?= n)
  | S754_finite s m e =>
      Some (if 0 <=? e then signed s m * 2 ^ e ?= n
            else signed s m ?= n * 2 ^ (- e))
  end.

Definition num_compare_int (x : num) (n : Z) : option comparison :=
  match x with
  | PyInt z => Some (z ?= n)
  | PyFloat f => float_compare_int f n
  end.

(** [x == n] *)
Definition num_eq_int (x : num) (n : Z) : bool :=
  match num_compare_int x n with
  | Some Eq => true
  | _ => false
  end.

(** [x >= n] *)
Definition num_ge_int (x : num) (n : Z) : bool :=
  match num_compare_int x n with
  | Some Eq | Some Gt => true
  | _ => false
  end.

(** [round(x)] of a float: the nearest integer, a tie going to the even
    one; infinities and NaN raise. *)
Definition py_round (x : float) : result Z :=
  match x with
  | S754_nan => Raise ValueError
  | S754_infinity _ => Raise OverflowError
  | S754_zero _ => Ok 0
  | S754_finite s m e =>
      if 0 <=? e then Ok (signed s m * 2 ^ e)
      else
        let d := 2 ^ (- e) in
        let q := signed s m / d in
        let r := signed s m mod d in
        match 2 * r ?= d with
        | Lt => Ok q
        | Gt => Ok (q + 1)
        | Eq => Ok (if Z.even q then q else q + 1)
        end
  end.

(** [str(n)] of an integer, as ['{}'.format(n)] prints it *)
Definition str_of_int (n : Z) : string :=
  NilZero.string_of_int (Z.to_int n).

(** ** Logging and the monad of the speed methods

    The speed methods do not change the Interface; they may raise and
    they may emit a warning on the module's logger. *)

Record LogRecord := mkLog {
  log_port : Z;
  log_switch : string;
  log_features : option Z
}.

Definition Py (A : Type) : Type := (result A * list LogRecord)%type.

Definition ret {A} (a : A) : Py A := (Ok a, []).

Definition raise {A} (e : exn) : Py A := (Raise e, []).

Definition bind {A B} (m : Py A) (k : A -> Py B) : Py B :=
  match m with
  | (Ok a, l) => let (r, l') := k a in (r, (l ++ l')%list)
  | (Raise e, l) => (Raise e, l)
  end.

Definition lift {A} (r : result A) : Py A := (r, []).

Definition warning (r : LogRecord) : Py unit := (Ok tt, [r]).

Notation "x <- m ;; k" := (bind m (fun x => k))
  (at level 61, m at next level, right associativity).
Notation "m ;;; k" := (bind m (fun _ => k))
  (at level 61, right associativity).

(** ** The port feature bits

    [pyof.v0x01.common.phy_port.PortFeatures] and
    [pyof.v0x04.common.port.PortFeatures] belong to the python-openflow
    library; the methods below read these members of them, and are stated
    for every value the members can have. *)

Module PortFeatures01.
Class t := mk {
  OFPPF_10MB_HD : Z;
  OFPPF_10MB_FD : Z;
  OFPPF_100MB_HD : Z;
  OFPPF_100MB_FD : Z;
  OFPPF_1GB_HD : Z;
  OFPPF_1GB_FD : Z;
  OFPPF_10GB_FD : Z
}.
End PortFeatures01.

Module PortFeatures04.
Class t := mk {
  OFPPF_40GB_FD : Z;
  OFPPF_100GB_FD : Z;
  OFPPF_1TB_FD : Z
}.
End PortFeatures04.

(** The bits as OpenFlow 1.0 and OpenFlow 1.3 number them. *)
Definition openflow10 : PortFeatures01.t :=
  PortFeatures01.mk (Z.shiftl 1 0) (Z.shiftl 1 1) (Z.shiftl 1 2)
    (Z.shiftl 1 3) (Z.shiftl 1 4) (Z.shiftl 1 5) (Z.shiftl 1 6).

Definition openflow13 : PortFeatures04.t :=
  PortFeatures04.mk (Z.shiftl 1 7) (Z.shiftl 1 8) (Z.shiftl 1 9).

(** [fts and fts & mask], read as a condition *)
Definition has_feature (fts : option Z) (mask : Z) : bool :=
  match fts with
  | None => false
  | Some f => if f =? 0 then false else negb (Z.land f mask =? 0)
  end.

(** ** Identity *)

(** What [__eq__] can be handed: a string, another Interface, or any
    other value. *)
Inductive object :=
| OStr (s : string)
| OInterface (i : Interface)
| OOther (v : PyVal).

(** [==] on an optional address *)
Definition address_eq (a b : option string) : bool :=
  match a, b with
  | Some x, Some y => String.eqb x y
  | None, None => true
  | _, _ => false
  end.

(** [Interface.__eq__] *)
Definition Interface_eq (self : Interface) (other : object) : bool :=
  match other with
  | OStr s => address_eq (address self) (Some s)
  | OInterface other =>
      (port_number self =? port_number other)
      && String.eqb (name self) (name other)
      && address_eq (address self) (address other)
      && String.eqb (Switch.dpid (switch self)) (Switch.dpid (switch other))
  | OOther _ => false
  end.

(** [Interface.id] *)
Definition Interface_id (self : Interface) : string :=
  Switch.dpid (switch self) ++ ":" ++ str_of_int (port_number self).

(** [Interface.uni] *)
Definition uni (self : Interface) : bool := negb (nni self).

(** ** Speed *)

(** [Interface.set_custom_speed] *)
Definition set_custom_speed (bytes_per_second : option num) : M unit :=
  fun self =>
    (Ok tt,
     {| name := name self; port_number := port_number self;
        switch := switch self; address := address self; state := state self;
        features := features self; nni := nni self; stats := stats self;
        _custom_speed := bytes_per_second;
        available_tags := available_tags self;
        metadata := metadata self |}).

(** [Interface.get_custom_speed] *)
Definition get_custom_speed (self : Interface) : option num :=
  _custom_speed self.

(** [Interface._is_v0x04] *)
Definition _is_v0x04 (self : Interface) : bool :=
  Switch.is_connected (switch self)
  && match Switch.connection_protocol_version (switch self) with
     | Some version => version =? 4
     | None => false
     end.

(** [a / b] of two integer literals, as a speed *)
Definition speed_of (a b : Z) : Py (option num) :=
  q <- lift (int_truediv a b) ;; ret (Some (PyFloat q)).

Section Speed.
Context {pfts01 : PortFeatures01.t} {pfts04 : PortFeatures04.t}.

(** [Interface._get_v0x01_v0x04_speed] *)
Definition _get_v0x01_v0x04_speed (self : Interface) : Py (option num) :=
  let fts := features self in
  if has_feature fts PortFeatures01.OFPPF_10GB_FD then
    speed_of (10 * 10 ^ 9) 8
  else if has_feature fts (Z.lor PortFeatures01.OFPPF_1GB_HD
                                 PortFeatures01.OFPPF_1GB_FD) then
    speed_of (10 ^ 9) 8
  else if has_feature fts (Z.lor PortFeatures01.OFPPF_100MB_HD
                                 PortFeatures01.OFPPF_100MB_FD) then
    speed_of (100 * 10 ^ 6) 8
  else if has_feature fts (Z.lor PortFeatures01.OFPPF_10MB_HD
                                 PortFeatures01.OFPPF_10MB_FD) then
    speed_of (10 * 10 ^ 6) 8
  else ret None.

(** [Interface._get_v0x04_speed] *)
Definition _get_v0x04_speed (self : Interface) : Py (option num) :=
  let fts := features self in
  if has_feature fts PortFeatures04.OFPPF_1TB_FD then
    speed_of (10 ^ 12) 8
  else if has_feature fts PortFeatures04.OFPPF_100GB_FD then
    speed_of (100 * 10 ^ 9) 8
  else if has_feature fts PortFeatures04.OFPPF_40GB_FD then
    speed_of (40 * 10 ^ 9) 8
  else ret None.

(** The switch id as the warning prints it: shortened to its first and
    last three characters when longer than 20. *)
Definition short_switch_id (sid : string) : string :=
  if Nat.ltb 20 (String.length sid)
  then substring 0 3 sid ++ "..."
       ++ substring (String.length sid - 3) 3 sid
  else sid.

(** [Interface.get_of_features_speed] *)
Definition get_of_features_speed (self : Interface) : Py (option num) :=
  speed <- _get_v0x01_v0x04_speed self ;;
  speed <- match speed with
           | None => if _is_v0x04 self then _get_v0x04_speed self
                     else ret speed
           | Some _ => ret speed
           end ;;
  match speed with
  | Some _ => ret speed
  | None =>
      let switch_id := short_switch_id (Switch.id (switch self)) in
      warning (mkLog (port_number self) switch_id (features self)) ;;;
      ret None
  end.

(** [Interface.speed] *)
Definition speed (self : Interface) : Py (option num) :=
  match _custom_speed self with
  | Some custom => ret (Some custom)
  | None => get_of_features_speed self
  end.

(** [Interface.get_hr_speed] *)
Definition get_hr_speed (self : Interface) : Py string :=
  speed <- speed self ;;
  match speed with
  | None => ret ""
  | Some speed =>
      speed <- lift (num_mul speed 8) ;;
      if num_eq_int speed (10 ^ 12) then ret "1 Tbps"
      else if num_ge_int speed (10 ^ 9) then
        q <- lift (num_truediv speed (10 ^ 9)) ;;
        n <- lift (py_round q) ;;
        ret (str_of_int n ++ " Gbps")
      else
        q <- lift (num_truediv speed (10 ^ 6)) ;;
        n <- lift (py_round q) ;;
        ret (str_of_int n ++ " Mbps")
  end.

(** A value or [None] *)
Definition opt_val {A} (f : A -> PyVal) (o : option A) : PyVal :=
  match o with
  | Some a => f a
  | None => VNone
  end.

(** [d[key] = v] on a dictionary kept in insertion order *)
Fixpoint dict_set (d : list (string * PyVal)) (key : string) (v : PyVal)
    : list (string * PyVal) :=
  match d with
  | [] => [(key, v)]
  | (k, w) :: d' =>
      if String.eqb k key then (k, v) :: d' else (k, w) :: dict_set d' key v
  end.

(** [d.get(key)] *)
Fixpoint dict_get (d : list (string * PyVal)) (key : string)
    : option PyVal :=
  match d with
  | [] => None
  | (k, w) :: d' => if String.eqb k key then Some w else dict_get d' key
  end.

(** [Interface.as_dict]; [stats] holds what [self.stats.as_dict()]
    renders. *)
Definition as_dict (self : Interface) : Py (list (string * PyVal)) :=
  speed <- speed self ;;
  let iface_dict :=
    [("id", VStr (Interface_id self));
     ("name", VStr (name self));
     ("port_number", VNum (PyInt (port_number self)));
     ("mac", opt_val VStr (address self));
     ("switch", VStr (Switch.dpid (switch self)));
     ("type", VStr "interface");
     ("nni", VBool (nni self));
     ("uni", VBool (uni self));
     ("speed", opt_val VNum speed);
     ("metadata", VDict (metadata self))] in
  match stats self with
  | Some rendered => ret (dict_set iface_dict "stats" (VDict rendered))
  | None => ret iface_dict
  end.

End Speed.

(** ** Runs of pool operations *)

Inductive pool_op :=
| Use (tag : TAG)
| Next
| Release (tag : TAG).

Definition run_op (o : pool_op) (self : Interface) : Interface :=
  match o with
  | Use tag => snd (use_tag tag self)
  | Next => snd (get_next_available_tag self)
  | Release tag => snd (make_tag_available tag self)
  end.

Definition run_ops (ops : list pool_op) (self : Interface) : Interface :=
  fold_left (fun self o => run_op o self) ops self.

(** No two entries of a pool are equal under [TAG.__eq__]. *)
Definition no_equal_entries (pool : list TAG) : Prop :=
  forall i j a b,
    nth_error pool i = Some a -> nth_error pool j = Some b ->
    TAG_eq a b = true -> i = j.

(** *** Insertion stamps

    To speak of the most recently inserted tag, the pool is run a second
    time with every entry carrying the number of the [append] that put it
    there.  [stamped_run_agrees] below shows that forgetting the stamps
    gives the pool of the Interface. *)

Record stamped := mkStamped {
  entries : list (nat * TAG);
  clock : nat
}.

Definition stamped_append (h : stamped) (tag : TAG) : stamped :=
  mkStamped (entries h ++ [(clock h, tag)]) (S (clock h)).

Fixpoint stamped_remove (x : TAG) (l : list (nat * TAG))
    : list (nat * TAG) :=
  match l with
  | [] => []
  | e :: l' => if TAG_eq (snd e) x then l' else e :: stamped_remove x l'
  end.

Definition stamped_init : stamped :=
  fold_left (fun h i => stamped_append h (mkTAG VLAN i)) (range 1 4096)
            (mkStamped [] 0).

Definition stamped_op (o : pool_op) (h : stamped) : stamped :=
  match o with
  | Use tag => mkStamped (stamped_remove tag (entries h)) (clock h)
  | Next => mkStamped (removelast (entries h)) (clock h)
  | Release tag =>
      if existsb (fun e => TAG_eq (snd e) tag) (entries h) then h
      else stamped_append h tag
  end.

Definition stamped_run (ops : list pool_op) (h : stamped) : stamped :=
  fold_left (fun h o => stamped_op o h) ops h.

(** The entry of [h] inserted last among those that remain. *)
Definition newest (h : stamped) (k : nat) (tag : TAG) : Prop :=
  In (k, tag) (entries h)
  /\ forall k' tag', In (k', tag') (entries h) -> (k' <= k)%nat.

Definition stamp_lt (a b : nat * TAG) : Prop := (fst a < fst b)%nat.

(** Stamps grow along the pool and stay below the clock. *)
Definition stamped_ok (h : stamped) : Prop :=
  StronglySorted stamp_lt (entries h)
  /\ Forall (fun e => (fst e < clock h)%nat) (entries h).

(** Ascending order of value *)
Definition value_lt (a b : TAG) : Prop := value a < value b.

(** ** Speeds by name *)

(** The float of an integer, rounded to nearest *)
Definition exact_float (z : Z) : float := binary_normalize 53 1024 z 0 false.

(** Bytes per second of a link of [bits] bits per second, as a float *)
Definition bytes_per_second (bits : Z) : num := PyFloat (exact_float (bits / 8)).

Definition tier_a_speeds : list num :=
  [bytes_per_second (10 * 10 ^ 9); bytes_per_second (10 ^ 9);
   bytes_per_second (100 * 10 ^ 6); bytes_per_second (10 * 10 ^ 6)].

Definition tier_b_speeds : list num :=
  [bytes_per_second (10 ^ 12); bytes_per_second (100 * 10 ^ 9);
   bytes_per_second (40 * 10 ^ 9)].

(** Every bit that [_get_v0x01_v0x04_speed] tests *)
Definition tier_a_mask {pfts01 : PortFeatures01.t} : Z :=
  Z.lor PortFeatures01.OFPPF_10GB_FD
    (Z.lor (Z.lor PortFeatures01.OFPPF_1GB_HD PortFeatures01.OFPPF_1GB_FD)
       (Z.lor (Z.lor PortFeatures01.OFPPF_100MB_HD
                     PortFeatures01.OFPPF_100MB_FD)
              (Z.lor PortFeatures01.OFPPF_10MB_HD
                     PortFeatures01.OFPPF_10MB_FD))).

(** What the higher bits give once the switch is known to speak 0x04:
    the first of 1 Tbps, 100 Gbps and 40 Gbps whose bit is set. *)
Definition tier_b_choice {pfts04 : PortFeatures04.t} (fts : Z) : option num :=
  if negb (Z.land fts PortFeatures04.OFPPF_1TB_FD =? 0)
  then Some (bytes_per_second (10 ^ 12))
  else if negb (Z.land fts PortFeatures04.OFPPF_100GB_FD =? 0)
  then Some (bytes_per_second (100 * 10 ^ 9))
  else if negb (Z.land fts PortFeatures04.OFPPF_40GB_FD =? 0)
  then Some (bytes_per_second (40 * 10 ^ 9))
  else None.

(** ["{round(s / d)} unit"], as Python evaluates it *)
Definition rounded_in (s : num) (d : Z) (unit : string) : result string :=
  match num_truediv s d with
  | Ok q =>
      match py_round q with
      | Ok n => Ok (str_of_int n ++ " " ++ unit)
      | Raise e => Raise e
      end
  | Raise e => Raise e
  end.

(** ** Sample objects *)

Definition sw_down : Switch.t :=
  Switch.mk "00:00:00:00:00:00:00:01" "00:00:00:00:00:00:00:01" false None.

Definition sw_v0x04 : Switch.t :=
  Switch.mk "00:00:00:00:00:00:00:01" "00:00:00:00:00:00:00:01" true (Some 4).

Definition sw_v0x01 : Switch.t :=
  Switch.mk "00:00:00:00:00:00:00:01" "00:00:00:00:00:00:00:01" true (Some 1).

(** A port advertising [fts] on switch [sw], with custom speed [spd] *)
Definition port2 (sw : Switch.t) (fts : option Z) (spd : option num)
    : Interface :=
  Interface_init "eth0" 2 sw (Some "00:11:22:33:44:55") None fts spd.

(** An Interface whose 4095 tags have all been handed out. *)
Definition exhausted : Interface :=
  run_ops (repeat Next 4095) (port2 sw_down None None).

(** ** Endpoints

    [self.endpoints] is a list of pairs of an endpoint and the time of
    its last update.  An endpoint is a hardware address, kept as a string
    like [address], or an Interface.  The four endpoint methods read and
    write nothing but this list, which is threaded through them here;
    the time that [now()] gives is an argument. *)

Inductive Endpoint :=
| EAddr (s : string)
| EIface (i : Interface).

(** [a == b] on endpoints.  A string against an Interface is answered by
    [Interface.__eq__], reflected, since [str.__eq__] gives
    [NotImplemented]. *)
Definition endpoint_eq (a b : Endpoint) : bool :=
  match a, b with
  | EAddr s, EAddr s' => String.eqb s s'
  | EAddr s, EIface i => Interface_eq i (OStr s)
  | EIface i, EAddr s => Interface_eq i (OStr s)
  | EIface i, EIface j => Interface_eq i (OInterface j)
  end.

(** [==] on the pairs: component by component *)
Definition entry_eq (a b : Endpoint * Z) : bool :=
  endpoint_eq (fst a) (fst b) && (snd a =? snd b).

Definition E (A : Type) : Type :=
  list (Endpoint * Z) -> result A * list (Endpoint * Z).

(** [Interface.get_endpoint] *)
Definition get_endpoint (endpoint : Endpoint)
    (endpoints : list (Endpoint * Z)) : option (Endpoint * Z) :=
  find (fun item => endpoint_eq endpoint (fst item)) endpoints.

(** [Interface.add_endpoint] *)
Definition add_endpoint (endpoint : Endpoint) (now : Z) : E unit :=
  fun endpoints =>
    match get_endpoint endpoint endpoints with
    | None => (Ok tt, (endpoints ++ [(endpoint, now)])%list)
    | Some _ => (Ok tt, endpoints)
    end.

(** [list.remove(x)] on the endpoint list; [None] stands for
    [ValueError]. *)
Fixpoint entries_remove (x : Endpoint * Z) (l : list (Endpoint * Z))
    : option (list (Endpoint * Z)) :=
  match l with
  | [] => None
  | item :: l' =>
      if entry_eq item x then Some l'
      else match entries_remove x l' with
           | Some r => Some (item :: r)
           | None => None
           end
  end.

(** [Interface.delete_endpoint] *)
Definition delete_endpoint (endpoint : Endpoint) : E unit :=
  fun endpoints =>
    match get_endpoint endpoint endpoints with
    | Some found =>
        match entries_remove found endpoints with
        | Some l => (Ok tt, l)
        | None => (Raise ValueError, endpoints)
        end
    | None => (Ok tt, endpoints)
    end.

(** [Interface.update_endpoint] *)
Definition update_endpoint (endpoint : Endpoint) (now : Z) : E unit :=
  fun endpoints =>
    match get_endpoint endpoint endpoints with
    | Some _ =>
        match delete_endpoint endpoint endpoints with
        | (Ok _, l) => add_endpoint endpoint now l
        | (Raise e, l) => (Raise e, l)
        end
    | None => add_endpoint endpoint now endpoints
    end.

Inductive endpoint_op :=
| Add (e : Endpoint) (now : Z)
| Delete (e : Endpoint)
| Update (e : Endpoint) (now : Z).

Definition run_endpoint_op (o : endpoint_op) : E unit :=
  match o with
  | Add e now => add_endpoint e now
  | Delete e => delete_endpoint e
  | Update e now => update_endpoint e now
  end.

(** A run stops at the first call that raises. *)
Fixpoint run_endpoint_ops (ops : list endpoint_op) : E unit :=
  fun endpoints =>
    match ops with
    | [] => (Ok tt, endpoints)
    | o :: ops' =>
        match run_endpoint_op o endpoints with
        | (Ok _, l) => run_endpoint_ops ops' l
        | (Raise e, l) => (Raise e, l)
        end
    end.

(** No two entries hold equal endpoints. *)
Definition distinct_endpoints (endpoints : list (Endpoint * Z)) : Prop :=
  forall i j a b,
    nth_error endpoints i = Some a -> nth_error endpoints j = Some b ->
    endpoint_eq (fst a) (fst b) = true -> i = j.

(** ** More names for the speed *)

(** What the common bits give: the first of 10 Gbps, 1 Gbps, 100 Mbps and
    10 Mbps that has a bit set. *)
Definition tier_a_choice {pfts01 : PortFeatures01.t} (fts : Z) : option num :=
  if negb (Z.land fts PortFeatures01.OFPPF_10GB_FD =? 0)
  then Some (bytes_per_second (10 * 10 ^ 9))
  else if negb (Z.land fts (Z.lor PortFeatures01.OFPPF_1GB_HD
                                  PortFeatures01.OFPPF_1GB_FD) =? 0)
  then Some (bytes_per_second (10 ^ 9))
  else if negb (Z.land fts (Z.lor PortFeatures01.OFPPF_100MB_HD
                                  PortFeatures01.OFPPF_100MB_FD) =? 0)
  then Some (bytes_per_second (100 * 10 ^ 6))
  else if negb (Z.land fts (Z.lor PortFeatures01.OFPPF_10MB_HD
                                  PortFeatures01.OFPPF_10MB_FD) =? 0)
  then Some (bytes_per_second (10 * 10 ^ 6))
  else None.

(** The Interface moved to another switch object *)
Definition on_switch (self : Interface) (sw : Switch.t) : Interface :=
  {| name := name self; port_number := port_number self; switch := sw;
     address := address self; state := state self;
     features := features self; nni := nni self; stats := stats self;
     _custom_speed := _custom_speed self;
     available_tags := available_tags self; metadata := metadata self |}.

(** The speeds of the feature tables and how [get_hr_speed] prints them *)
Definition tier_names : list (num * string) :=
  [(bytes_per_second (10 * 10 ^ 9), "10 Gbps");
   (bytes_per_second (10 ^ 9), "1 Gbps");
   (bytes_per_second (100 * 10 ^ 6), "100 Mbps");
   (bytes_per_second (10 * 10 ^ 6), "10 Mbps");
   (bytes_per_second (10 ^ 12), "1 Tbps");
   (bytes_per_second (100 * 10 ^ 9), "100 Gbps");
   (bytes_per_second (40 * 10 ^ 9), "40 Gbps")].

(** The warning of an unknown speed *)
Definition unknown_speed_warning (self : Interface) : LogRecord :=
  mkLog (port_number self) (short_switch_id (Switch.id (switch self)))
    (features self).

(** A character of a string *)
Definition has_char (c : ascii) (s : string) : Prop :=
  In c (list_ascii_of_string s).

(** ** More names for the endpoints, the speed and the pool *)

(** The entries that do not match [e] *)
Definition others (e : Endpoint) (l : list (Endpoint * Z))
    : list (Endpoint * Z) :=
  filter (fun z => negb (endpoint_eq e (fst z))) l.

(** Every bit that [_get_v0x04_speed] tests *)
Definition tier_b_mask {pfts04 : PortFeatures04.t} : Z :=
  Z.lor PortFeatures04.OFPPF_1TB_FD
    (Z.lor PortFeatures04.OFPPF_100GB_FD PortFeatures04.OFPPF_40GB_FD).

(** A computation that logs nothing *)
Definition quiet {A} (c : Py A) : Prop := snd c = [].

(** What one call gives to its caller: the tag of a [use_tag] that
    returned True, the tag that [get_next_available_tag] returned. *)
Definition given (o : pool_op) (self : Interface) : list TAG :=
  match o with
  | Use tag =>
      match fst (use_tag tag self) with
      | Ok true => [tag]
      | _ => []
      end
  | Next =>
      match fst (get_next_available_tag self) with
      | Ok (VTag tag) => [tag]
      | _ => []
      end
  | Release _ => []
  end.

(** What one call puts into the pool: the tag of a [make_tag_available]
    that had no equal there. *)
Definition taken (o : pool_op) (self : Interface) : list TAG :=
  match o with
  | Release tag => if is_tag_available tag self then [] else [tag]
  | _ => []
  end.

(** The tags that the calls of a run gave to their callers *)
Fixpoint handed_out (ops : list pool_op) (self : Interface) : list TAG :=
  match ops with
  | [] => []
  | o :: ops' => given o self ++ handed_out ops' (run_op o self)
  end.

(** The tags that the calls of a run put into the pool *)
Fixpoint taken_back (ops : list pool_op) (self : Interface) : list TAG :=
  match ops with
  | [] => []
  | o :: ops' => taken o self ++ taken_back ops' (run_op o self)
  end.

Definition is_release (o : pool_op) : bool :=
  match o with
  | Release _ => true
  | _ => false
  end.

(** * Properties *)

Open Scope list_scope.

(** ** TAG equality *)

Lemma TAGType_eq_true_iff (a b : TAGType) : TAGType_eq a b = true <-> a = b.
Proof.
  unfold TAGType_eq; rewrite Z.eqb_eq; split; [| now intros ->].
  destruct a, b; simpl; intros H; try reflexivity; discriminate H.
Qed.

Lemma TAG_eq_true_iff (a b : TAG) : TAG_eq a b = true <-> a = b.
Proof.
  unfold TAG_eq; rewrite andb_true_iff, TAGType_eq_true_iff, Z.eqb_eq.
  destruct a as [ta va], b as [tb vb]; simpl; split.
  - intros [-> ->]; reflexivity.
  - intros H; injection H; auto.
Qed.

Lemma TAG_eq_refl (a : TAG) : TAG_eq a a = true.
Proof. now apply TAG_eq_true_iff. Qed.

Lemma TAG_eq_sym (a b : TAG) : TAG_eq a b = TAG_eq b a.
Proof.
  destruct (TAG_eq a b) eqn:E; symmetry.
  - apply TAG_eq_true_iff in E; subst; apply TAG_eq_refl.
  - destruct (TAG_eq b a) eqn:E'; [| reflexivity].
    apply TAG_eq_true_iff in E'; subst; now rewrite TAG_eq_refl in E.
Qed.

Lemma TAG_eq_false_iff (a b : TAG) : TAG_eq a b = false <-> a <> b.
Proof.
  rewrite <- TAG_eq_true_iff; destruct (TAG_eq a b); split; congruence.
Qed.

(** ** Lists as Python uses them *)

Lemma list_pop_app (l : list TAG) (x : TAG) : list_pop (l ++ [x]) = Some (x, l).
Proof.
  induction l as [| y l IH]; simpl; [reflexivity |].
  now rewrite IH.
Qed.

Lemma list_pop_some (l r : list TAG) (x : TAG) :
  list_pop l = Some (x, r) -> l = r ++ [x].
Proof.
  revert r; induction l as [| y l IH]; simpl; intros r H; [discriminate |].
  destruct (list_pop l) as [[z r'] |] eqn:E.
  - injection H as <- <-; simpl; f_equal; now apply IH.
  - injection H as <- <-; destruct l as [| z l]; [reflexivity |].
    simpl in E; destruct (list_pop l) as [[? ?] |]; discriminate.
Qed.

Lemma list_pop_none (l : list TAG) : list_pop l = None <-> l = [].
Proof.
  split; [| now intros ->].
  destruct l as [| y l]; [reflexivity | simpl].
  destruct (list_pop l) as [[? ?] |]; discriminate.
Qed.

Lemma list_contains_true_iff (x : TAG) (l : list TAG) :
  list_contains x l = true <-> In x l.
Proof.
  unfold list_contains; rewrite existsb_exists; split.
  - intros [y [Hy E]]; apply TAG_eq_true_iff in E; now subst.
  - intros H; exists x; split; [assumption | apply TAG_eq_refl].
Qed.

Lemma list_remove_split (x : TAG) (l r : list TAG) :
  list_remove x l = Some r ->
  exists l1 e l2,
    l = l1 ++ e :: l2 /\ r = l1 ++ l2 /\ TAG_eq e x = true
    /\ forall y, In y l1 -> TAG_eq y x = false.
Proof.
  revert r; induction l as [| y l IH]; simpl; intros r H; [discriminate |].
  destruct (TAG_eq y x) eqn:E.
  - injection H as <-; exists [], y, l; repeat split; auto.
    intros ? [].
  - destruct (list_remove x l) as [r' |]; [| discriminate].
    injection H as <-.
    destruct (IH r' eq_refl) as (l1 & e & l2 & -> & -> & He & Hl1).
    exists (y :: l1), e, l2; repeat split; auto.
    intros z [<- | Hz]; auto.
Qed.

Lemma list_remove_present (x : TAG) (l : list TAG) :
  list_contains x l = true -> exists r, list_remove x l = Some r.
Proof.
  unfold list_contains; induction l as [| y l IH]; simpl; [discriminate |].
  destruct (TAG_eq y x); simpl; [eauto |].
  intros H; destruct (IH H) as [r ->]; eauto.
Qed.

Lemma find_equal_tag (tag : TAG) (l : list TAG) :
  find (fun available_tag => TAG_eq tag available_tag) l
  = if list_contains tag l then Some tag else None.
Proof.
  unfold list_contains; induction l as [| y l IH]; simpl; [reflexivity |].
  rewrite (TAG_eq_sym y tag); destruct (TAG_eq tag y) eqn:E; simpl.
  - apply TAG_eq_true_iff in E; now subst.
  - exact IH.
Qed.

(** ** [no_equal_entries] is duplicate-freeness *)

Lemma no_equal_entries_NoDup (l : list TAG) : no_equal_entries l <-> NoDup l.
Proof.
  rewrite NoDup_nth_error; unfold no_equal_entries; split.
  - intros H i j Hi E.
    destruct (nth_error l i) as [a |] eqn:Ea.
    + apply (H i j a a Ea); [now rewrite <- E | apply TAG_eq_refl].
    + apply nth_error_None in Ea; lia.
  - intros H i j a b Ha Hb E; apply TAG_eq_true_iff in E; subst b.
    apply H; [| congruence].
    apply nth_error_Some; congruence.
Qed.

(** ** The seeded pool *)

Lemma range_length (a b : Z) : List.length (range a b) = Z.to_nat (b - a).
Proof. unfold range; now rewrite length_map, length_seq. Qed.

Lemma range_In (a b v : Z) : In v (range a b) <-> a <= v < b.
Proof.
  unfold range; rewrite in_map_iff; split.
  - intros [k [<- Hk]]; apply in_seq in Hk; lia.
  - intros H; exists (Z.to_nat (v - a)); split; [lia |].
    apply in_seq; lia.
Qed.

Lemma offsets_sorted (a : Z) (n s : nat) :
  StronglySorted Z.lt (map (fun k => a + Z.of_nat k) (seq s n)).
Proof.
  revert s; induction n as [| n IH]; intros s; simpl; constructor.
  - apply IH.
  - apply Forall_forall; intros y Hy.
    apply in_map_iff in Hy; destruct Hy as [k [<- Hk]].
    apply in_seq in Hk; lia.
Qed.

Lemma range_sorted (a b : Z) : StronglySorted Z.lt (range a b).
Proof. apply offsets_sorted. Qed.

Lemma vlan_tags_sorted (l : list Z) :
  StronglySorted Z.lt l -> StronglySorted value_lt (map (mkTAG VLAN) l).
Proof.
  induction 1 as [| v l Hs IH Hf]; simpl; constructor; [assumption |].
  apply Forall_forall; intros t Ht.
  apply in_map_iff in Ht; destruct Ht as [w [<- Hw]].
  rewrite Forall_forall in Hf; exact (Hf w Hw).
Qed.

Lemma value_sorted_NoDup (l : list TAG) : StronglySorted value_lt l -> NoDup l.
Proof.
  induction 1 as [| t l Hs IH Hf]; constructor; [| assumption].
  intros Hin; rewrite Forall_forall in Hf.
  specialize (Hf t Hin); unfold value_lt in Hf; lia.
Qed.

Lemma seed_loop (l : list Z) (self : Interface) :
  available_tags
    (fold_left
       (fun self i =>
          let vlan := VLAN in
          let tag := mkTAG vlan i in
          append_tag self tag) l self)
  = available_tags self ++ map (mkTAG VLAN) l.
Proof.
  revert self; induction l as [| i l IH]; intros self; simpl.
  - now rewrite app_nil_r.
  - rewrite IH; simpl; now rewrite <- app_assoc.
Qed.

Lemma init_pool (name : string) (port : Z) (sw : Switch.t)
    (addr : option string) (st fts : option Z) (spd : option num) :
  available_tags (Interface_init name port sw addr st fts spd)
  = map (mkTAG VLAN) (range 1 4096).
Proof. unfold Interface_init; now rewrite seed_loop. Qed.

Lemma seeded_pool_sorted :
  StronglySorted value_lt (map (mkTAG VLAN) (range 1 4096)).
Proof. apply vlan_tags_sorted, range_sorted. Qed.

Lemma seeded_pool_NoDup : NoDup (map (mkTAG VLAN) (range 1 4096)).
Proof. apply value_sorted_NoDup, seeded_pool_sorted. Qed.

(** C1. A freshly constructed Interface, whatever its name, port number,
    switch and other arguments, has a pool of exactly 4095 tags, pairwise
    different under TAG equality: the VLAN tags of the values 1 to 4095,
    one for each value and no other tag, in ascending order of value. *)
Theorem init_pool_is_vlan_1_to_4095 (name : string) (port : Z)
    (sw : Switch.t) (addr : option string) (st fts : option Z)
    (spd : option num) :
  List.length (available_tags (Interface_init name port sw addr st fts spd))
  = 4095%nat
  /\ no_equal_entries
       (available_tags (Interface_init name port sw addr st fts spd))
  /\ (forall t,
        In t (available_tags (Interface_init name port sw addr st fts spd))
        <-> tag_type t = VLAN /\ 1 <= value t <= 4095)
  /\ StronglySorted value_lt
       (available_tags (Interface_init name port sw addr st fts spd))
  /\ (forall k, (k < 4095)%nat ->
        nth_error
          (available_tags (Interface_init name port sw addr st fts spd)) k
        = Some (mkTAG VLAN (Z.of_nat k + 1))).
Proof.
  rewrite init_pool.
  split; [now rewrite length_map, range_length |].
  split; [apply no_equal_entries_NoDup, seeded_pool_NoDup |].
  split; [| split; [exact seeded_pool_sorted |]].
  - intros t; rewrite in_map_iff; split.
    + intros [v [<- Hv]]; apply range_In in Hv; simpl; split; [reflexivity | lia].
    + intros [Ht Hv]; exists (value t); split.
      * destruct t as [ty v]; simpl in *; now subst.
      * apply range_In; lia.
  - intros k Hk; unfold range.
    rewrite map_map, nth_error_map.
    rewrite nth_error_seq.
    replace (k <? Z.to_nat (4096 - 1))%nat with true
      by (symmetry; apply Nat.ltb_lt; lia).
    cbn [option_map Nat.add]; do 2 f_equal; lia.
Qed.

(** ** Reserving, allocating and releasing *)

Lemma is_tag_available_iff (tag : TAG) (self : Interface) :
  is_tag_available tag self = true
  <-> exists e, In e (available_tags self) /\ TAG_eq e tag = true.
Proof. unfold is_tag_available, list_contains; apply existsb_exists. Qed.

Lemma list_remove_absent (x : TAG) (l : list TAG) :
  list_contains x l = false -> list_remove x l = None.
Proof.
  unfold list_contains; induction l as [| y l IH]; simpl; [reflexivity |].
  destruct (TAG_eq y x); simpl; [discriminate |].
  intros H; now rewrite (IH H).
Qed.

Lemma use_tag_pool (tag : TAG) (self : Interface) :
  available_tags (snd (use_tag tag self))
  = match list_remove tag (available_tags self) with
    | Some r => r
    | None => available_tags self
    end.
Proof.
  unfold use_tag; rewrite find_equal_tag.
  destruct (list_contains tag (available_tags self)) eqn:E.
  - destruct (list_remove_present _ _ E) as [r ->]; reflexivity.
  - rewrite (list_remove_absent _ _ E); reflexivity.
Qed.

Lemma get_next_pool (self : Interface) :
  available_tags (snd (get_next_available_tag self))
  = removelast (available_tags self).
Proof.
  unfold get_next_available_tag.
  destruct (list_pop (available_tags self)) as [[tag r] |] eqn:E; simpl.
  - apply list_pop_some in E; rewrite E; now rewrite removelast_last.
  - apply list_pop_none in E; now rewrite E.
Qed.

Lemma make_tag_available_pool (tag : TAG) (self : Interface) :
  available_tags (snd (make_tag_available tag self))
  = if list_contains tag (available_tags self) then available_tags self
    else available_tags self ++ [tag].
Proof.
  unfold make_tag_available, is_tag_available.
  destruct (list_contains tag (available_tags self)); reflexivity.
Qed.

(** C6. [use_tag] on any pool and any TAG: when some entry equal to the
    tag is present, the first such entry, and only it, leaves the pool,
    which is one shorter, and the call returns True; when none is present
    the call returns False and the Interface is as it was.  Either way
    nothing is raised. *)
Theorem use_tag_removes_one_or_reports (tag : TAG) (self : Interface) :
  if is_tag_available tag self
  then exists l1 e l2,
      available_tags self = l1 ++ e :: l2
      /\ TAG_eq e tag = true
      /\ (forall y, In y l1 -> TAG_eq y tag = false)
      /\ use_tag tag self = (Ok true, set_available_tags self (l1 ++ l2))
      /\ S (List.length (available_tags (snd (use_tag tag self))))
         = List.length (available_tags self)
  else use_tag tag self = (Ok false, self).
Proof.
  unfold is_tag_available.
  destruct (list_contains tag (available_tags self)) eqn:E.
  - destruct (list_remove_present _ _ E) as [r Hr].
    destruct (list_remove_split _ _ _ Hr) as (l1 & e & l2 & Hl & -> & He & H1).
    exists l1, e, l2.
    assert (Hu : use_tag tag self
                 = (Ok true, set_available_tags self (l1 ++ l2))).
    { unfold use_tag; rewrite find_equal_tag, E, Hr; reflexivity. }
    repeat (split; [assumption |]).
    rewrite Hu, Hl; simpl; rewrite !length_app; simpl; lia.
  - unfold use_tag; now rewrite find_equal_tag, E.
Qed.

(** C7. On an Interface whose pool is empty, [get_next_available_tag]
    returns False to its caller, raising nothing, and leaves the Interface,
    and so its empty pool, as it was. *)
Theorem get_next_available_tag_on_empty (self : Interface) :
  available_tags self = [] ->
  get_next_available_tag self = (Ok (VBool false), self)
  /\ available_tags (snd (get_next_available_tag self)) = [].
Proof.
  intros H; unfold get_next_available_tag; rewrite H; simpl; auto.
Qed.

Lemma get_next_available_tag_on_empty_witness :
  available_tags exhausted = []
  /\ get_next_available_tag exhausted = (Ok (VBool false), exhausted).
Proof.
  assert (H : available_tags exhausted = []) by (vm_compute; reflexivity).
  split; [exact H |].
  exact (proj1 (get_next_available_tag_on_empty exhausted H)).
Defined.

(** ** Duplicate-freeness is kept *)

Lemma run_op_keeps_NoDup (o : pool_op) (self : Interface) :
  NoDup (available_tags self) -> NoDup (available_tags (run_op o self)).
Proof.
  intros H; destruct o as [tag | | tag]; simpl.
  - rewrite use_tag_pool.
    destruct (list_remove tag (available_tags self)) as [r |] eqn:E;
      [| assumption].
    destruct (list_remove_split _ _ _ E) as (l1 & e & l2 & Hl & -> & _).
    rewrite Hl in H; now apply NoDup_remove_1 in H.
  - rewrite get_next_pool.
    destruct (list_pop (available_tags self)) as [[tag r] |] eqn:E.
    + apply list_pop_some in E; rewrite E in H |- *.
      rewrite removelast_last; exact (NoDup_app_remove_r _ _ H).
    + apply list_pop_none in E; rewrite E; constructor.
  - rewrite make_tag_available_pool.
    destruct (list_contains tag (available_tags self)) eqn:E; [assumption |].
    apply NoDup_rev in H; rewrite <- (rev_involutive (_ ++ _)).
    apply NoDup_rev; rewrite rev_unit; constructor; [| assumption].
    rewrite <- in_rev; intros Hin.
    apply list_contains_true_iff in Hin; congruence.
Qed.

Lemma run_ops_keep_NoDup (ops : list pool_op) (self : Interface) :
  NoDup (available_tags self) -> NoDup (available_tags (run_ops ops self)).
Proof.
  revert self; induction ops as [| o ops IH]; intros self H; simpl;
    [assumption |].
  apply IH, run_op_keeps_NoDup, H.
Qed.

(** C5. The pool never holds two entries equal under TAG equality: it
    holds none after any run of [use_tag], [get_next_available_tag] and
    [make_tag_available] calls on a freshly constructed Interface; each of
    the three keeps a pool free of equal entries so; and
    [make_tag_available] of a tag that has an equal in the pool returns
    False and leaves the Interface, hence the pool, unchanged. *)
Theorem pool_never_holds_equal_tags :
  (forall ops name port sw addr st fts spd,
      no_equal_entries
        (available_tags
           (run_ops ops (Interface_init name port sw addr st fts spd))))
  /\ (forall o self,
         no_equal_entries (available_tags self) ->
         no_equal_entries (available_tags (run_op o self)))
  /\ (forall tag self,
         is_tag_available tag self = true ->
         make_tag_available tag self = (Ok (VBool false), self)).
Proof.
  split; [| split].
  - intros; apply no_equal_entries_NoDup, run_ops_keep_NoDup.
    rewrite init_pool; apply seeded_pool_NoDup.
  - intros o self H; apply no_equal_entries_NoDup, run_op_keeps_NoDup.
    now apply no_equal_entries_NoDup.
  - intros tag self H; unfold make_tag_available; now rewrite H.
Qed.

(** ** Allocation order *)

Lemma stamped_remove_In (x : TAG) (l : list (nat * TAG)) (e : nat * TAG) :
  In e (stamped_remove x l) -> In e l.
Proof.
  induction l as [| a l IH]; simpl; [auto |].
  destruct (TAG_eq (snd a) x); [auto |].
  intros [<- | H]; auto.
Qed.

Lemma removelast_In {A} (l : list A) (e : A) : In e (removelast l) -> In e l.
Proof.
  induction l as [| a l IH]; simpl; [auto |].
  destruct l as [| b l]; [intros [] |].
  intros [<- | H]; auto.
Qed.

Lemma stamped_remove_sorted (x : TAG) (l : list (nat * TAG)) :
  StronglySorted stamp_lt l -> StronglySorted stamp_lt (stamped_remove x l).
Proof.
  induction 1 as [| a l Hs IH Hf]; simpl; [constructor |].
  destruct (TAG_eq (snd a) x); [assumption |].
  constructor; [assumption |].
  rewrite Forall_forall in *; intros e He.
  apply Hf, (stamped_remove_In x), He.
Qed.

Lemma removelast_sorted (l : list (nat * TAG)) :
  StronglySorted stamp_lt l -> StronglySorted stamp_lt (removelast l).
Proof.
  induction 1 as [| a l Hs IH Hf]; [constructor |].
  change (removelast (a :: l))
    with (match l with [] => [] | _ :: _ => a :: removelast l end).
  destruct l as [| b l]; constructor; [assumption |].
  rewrite Forall_forall in *; intros e He.
  apply Hf, removelast_In, He.
Qed.

Lemma append_sorted (l : list (nat * TAG)) (e : nat * TAG) :
  StronglySorted stamp_lt l -> Forall (fun a => stamp_lt a e) l ->
  StronglySorted stamp_lt (l ++ [e]).
Proof.
  induction 1 as [| a l Hs IH Hf]; intros He; simpl.
  - repeat constructor.
  - inversion He as [| ? ? Ha Hl]; subst.
    constructor; [now apply IH |].
    apply Forall_app; split; [assumption | repeat constructor; assumption].
Qed.

Lemma sorted_last_is_newest (l : list (nat * TAG)) (e : nat * TAG) :
  StronglySorted stamp_lt (l ++ [e]) ->
  forall a, In a (l ++ [e]) -> (fst a <= fst e)%nat.
Proof.
  induction l as [| b l IH]; simpl; intros H a Ha.
  - destruct Ha as [<- | []]; lia.
  - inversion H as [| ? ? Hs Hf]; subst.
    destruct Ha as [<- | Ha]; [| now apply IH].
    rewrite Forall_forall in Hf.
    assert (stamp_lt b e) by (apply Hf, in_or_app; right; now left).
    unfold stamp_lt in *; lia.
Qed.

Lemma stamped_op_ok (o : pool_op) (h : stamped) :
  stamped_ok h -> stamped_ok (stamped_op o h).
Proof.
  intros [Hs Hc]; destruct o as [tag | | tag]; simpl.
  - split; simpl; [now apply stamped_remove_sorted |].
    rewrite Forall_forall in *; intros e He.
    apply Hc, (stamped_remove_In tag), He.
  - split; simpl; [now apply removelast_sorted |].
    rewrite Forall_forall in *; intros e He.
    apply Hc, removelast_In, He.
  - destruct (existsb _ (entries h)); [now split |].
    split; simpl.
    + apply append_sorted; [assumption |].
      eapply Forall_impl; [| exact Hc]; auto.
    + apply Forall_app; split.
      * eapply Forall_impl; [| exact Hc]; simpl; intros; lia.
      * repeat constructor.
Qed.

Lemma stamped_remove_erased (x : TAG) (l : list (nat * TAG)) :
  map snd (stamped_remove x l)
  = match list_remove x (map snd l) with
    | Some r => r
    | None => map snd l
    end.
Proof.
  induction l as [| a l IH]; simpl; [reflexivity |].
  destruct (TAG_eq (snd a) x); [reflexivity |].
  simpl; rewrite IH.
  destruct (list_remove x (map snd l)); reflexivity.
Qed.

Lemma removelast_erased (l : list (nat * TAG)) :
  map snd (removelast l) = removelast (map snd l).
Proof.
  induction l as [| a l IH]; [reflexivity |].
  destruct l as [| b l]; [reflexivity |].
  change (map snd (a :: removelast (b :: l))
          = snd a :: removelast (map snd (b :: l))).
  now rewrite <- IH.
Qed.

Lemma contains_erased (x : TAG) (l : list (nat * TAG)) :
  existsb (fun e => TAG_eq (snd e) x) l = list_contains x (map snd l).
Proof.
  unfold list_contains; induction l as [| a l IH]; simpl; [reflexivity |].
  now rewrite IH.
Qed.

Lemma stamped_op_agrees (o : pool_op) (h : stamped) (self : Interface) :
  map snd (entries h) = available_tags self ->
  map snd (entries (stamped_op o h)) = available_tags (run_op o self).
Proof.
  intros H; destruct o as [tag | | tag]; simpl.
  - now rewrite use_tag_pool, stamped_remove_erased, H.
  - now rewrite get_next_pool, removelast_erased, H.
  - rewrite make_tag_available_pool, contains_erased, H.
    destruct (list_contains tag (available_tags self)); [assumption |].
    simpl; now rewrite map_app, H.
Qed.

Lemma stamped_run_agrees (ops : list pool_op) (h : stamped)
    (self : Interface) :
  map snd (entries h) = available_tags self -> stamped_ok h ->
  map snd (entries (stamped_run ops h)) = available_tags (run_ops ops self)
  /\ stamped_ok (stamped_run ops h).
Proof.
  revert h self; induction ops as [| o ops IH]; intros h self H Hok; simpl;
    [split; assumption |].
  apply IH; [now apply stamped_op_agrees | now apply stamped_op_ok].
Qed.

Lemma stamped_seed (l : list Z) (h : stamped) :
  stamped_ok h ->
  stamped_ok
    (fold_left (fun h i => stamped_append h (mkTAG VLAN i)) l h)
  /\ map snd
       (entries (fold_left (fun h i => stamped_append h (mkTAG VLAN i)) l h))
     = map snd (entries h) ++ map (mkTAG VLAN) l.
Proof.
  revert h; induction l as [| i l IH]; intros h Hok; simpl.
  - split; [assumption | now rewrite app_nil_r].
  - assert (Hok' : stamped_ok (stamped_append h (mkTAG VLAN i))).
    { destruct Hok as [Hs Hc]; split; simpl.
      - apply append_sorted; [assumption |].
        eapply Forall_impl; [| exact Hc]; auto.
      - apply Forall_app; split.
        + eapply Forall_impl; [| exact Hc]; simpl; intros; lia.
        + repeat constructor. }
    destruct (IH _ Hok') as [H1 H2]; split; [assumption |].
    rewrite H2; simpl; now rewrite map_app, <- app_assoc.
Qed.

Lemma stamped_init_agrees (name : string) (port : Z) (sw : Switch.t)
    (addr : option string) (st fts : option Z) (spd : option num) :
  map snd (entries stamped_init)
  = available_tags (Interface_init name port sw addr st fts spd)
  /\ stamped_ok stamped_init.
Proof.
  assert (H0 : stamped_ok (mkStamped [] 0)) by (split; constructor).
  destruct (stamped_seed (range 1 4096) _ H0) as [Hok Hm].
  split; [| exact Hok].
  now rewrite init_pool.
Qed.

Lemma get_next_returns_last (self : Interface) (rest : list TAG) (tag : TAG) :
  available_tags self = rest ++ [tag] ->
  get_next_available_tag self = (Ok (VTag tag), set_available_tags self rest).
Proof.
  intros H; unfold get_next_available_tag; now rewrite H, list_pop_app.
Qed.

Lemma seeded_pool_pop :
  list_pop (map (mkTAG VLAN) (range 1 4096))
  = Some (mkTAG VLAN 4095, map (mkTAG VLAN) (range 1 4095)).
Proof. vm_compute; reflexivity. Qed.

(** C2. [get_next_available_tag] on a non-empty pool removes and returns
    the last entry of the list.  After any run of pool operations on a
    freshly constructed Interface that entry is the one inserted most
    recently among those that remain: insertion stamps grow strictly along
    the pool, the returned tag carries the greatest of them, and the
    stamped pool without its last entry is what the call leaves.  A tag released into a pool that lacks it is the next one
    allocated.  On a freshly constructed Interface the call returns the
    TAG of kind VLAN and value 4095 and leaves 4094 entries. *)
Theorem get_next_available_tag_is_lifo :
  (forall self, available_tags self <> [] ->
     exists rest tag,
       available_tags self = rest ++ [tag]
       /\ get_next_available_tag self
          = (Ok (VTag tag), set_available_tags self rest))
  /\ (forall ops name port sw addr st fts spd,
        map snd (entries (stamped_run ops stamped_init))
        = available_tags
            (run_ops ops (Interface_init name port sw addr st fts spd))
        /\ StronglySorted stamp_lt (entries (stamped_run ops stamped_init))
        /\ (available_tags
              (run_ops ops (Interface_init name port sw addr st fts spd))
            <> [] ->
            exists k tag,
              newest (stamped_run ops stamped_init) k tag
              /\ fst (get_next_available_tag
                        (run_ops ops
                           (Interface_init name port sw addr st fts spd)))
                 = Ok (VTag tag)
              /\ entries (stamped_op Next (stamped_run ops stamped_init))
                 ++ [(k, tag)]
                 = entries (stamped_run ops stamped_init)))
  /\ (forall tag self,
        is_tag_available tag self = false ->
        fst (get_next_available_tag (snd (make_tag_available tag self)))
        = Ok (VTag tag)
        /\ available_tags
             (snd (get_next_available_tag
                     (snd (make_tag_available tag self))))
           = available_tags self)
  /\ (forall name port sw addr st fts spd,
        fst (get_next_available_tag
               (Interface_init name port sw addr st fts spd))
        = Ok (VTag (mkTAG VLAN 4095))
        /\ List.length
             (available_tags
                (snd (get_next_available_tag
                        (Interface_init name port sw addr st fts spd))))
           = 4094%nat).
Proof.
  split; [| split; [| split]].
  - intros self H.
    destruct (exists_last H) as (rest & tag & E).
    exists rest, tag; split; [assumption |].
    now apply get_next_returns_last.
  - intros ops name port sw addr st fts spd.
    destruct (stamped_init_agrees name port sw addr st fts spd) as [H0 Hok0].
    destruct (stamped_run_agrees ops _ _ H0 Hok0) as [Hm [Hs _]].
    split; [assumption |]; split; [assumption |].
    intros Hne; rewrite <- Hm in Hne.
    assert (Hne' : entries (stamped_run ops stamped_init) <> [])
      by (intros E; apply Hne; now rewrite E).
    destruct (exists_last Hne') as (l & [k tag] & E).
    exists k, tag; split; [| split].
    + split; [rewrite E; apply in_or_app; right; now left |].
      intros k' tag' Hin; rewrite E in Hs, Hin.
      exact (sorted_last_is_newest _ _ Hs _ Hin).
    + rewrite (get_next_returns_last _ (map snd l) tag); [reflexivity |].
      rewrite <- Hm, E, map_app; reflexivity.
    + simpl; rewrite E; now rewrite removelast_last.
  - intros tag self H; unfold make_tag_available; rewrite H; simpl.
    rewrite (get_next_returns_last _ (available_tags self) tag);
      [split; reflexivity | reflexivity].
  - intros name port sw addr st fts spd.
    unfold get_next_available_tag; rewrite init_pool, seeded_pool_pop.
    unfold set_available_tags; cbn [fst snd available_tags].
    split; [reflexivity |].
    now rewrite length_map, range_length.
Qed.

(** ** Identity *)

Lemma address_eq_true_iff (a b : option string) :
  address_eq a b = true <-> a = b.
Proof.
  destruct a as [x |], b as [y |]; simpl;
    try (split; [discriminate | discriminate]); try tauto.
  rewrite String.eqb_eq; split; [now intros -> | now intros [= ->]].
Qed.

(** C9. An Interface equals a string exactly when its address is that
    string.  It equals another Interface exactly when port number, name,
    address and the dpid of the switch agree, whatever the other
    attributes of the two objects are; so an Interface equals one rebuilt
    from the same four values, and two Interfaces that agree on port
    number, name and address but sit on switches of different dpid are
    not equal. *)
Theorem Interface_eq_by_identity_fields (self : Interface) :
  (forall s, Interface_eq self (OStr s) = true <-> address self = Some s)
  /\ (forall other,
        Interface_eq self (OInterface other) = true
        <-> port_number self = port_number other
            /\ name self = name other
            /\ address self = address other
            /\ Switch.dpid (switch self) = Switch.dpid (switch other))
  /\ (forall sid connected version st fts is_nni sts spd pool meta,
        Interface_eq self
          (OInterface
             (mkInterface (name self) (port_number self)
                (Switch.mk (Switch.dpid (switch self)) sid connected version)
                (address self) st fts is_nni sts spd pool meta))
        = true)
  /\ (forall other,
        port_number self = port_number other ->
        name self = name other ->
        address self = address other ->
        Switch.dpid (switch self) <> Switch.dpid (switch other) ->
        Interface_eq self (OInterface other) = false).
Proof.
  assert (H : forall other,
             Interface_eq self (OInterface other) = true
             <-> port_number self = port_number other
                 /\ name self = name other
                 /\ address self = address other
                 /\ Switch.dpid (switch self) = Switch.dpid (switch other)).
  { intros other; simpl.
    rewrite !andb_true_iff, Z.eqb_eq, !String.eqb_eq, address_eq_true_iff.
    tauto. }
  split; [| split; [exact H | split]].
  - intros s; simpl; apply address_eq_true_iff.
  - intros; apply H; simpl; auto.
  - intros other Hp Hn Ha Hd.
    destruct (Interface_eq self (OInterface other)) eqn:E; [| reflexivity].
    apply H in E; tauto.
Qed.

(** ** Speed *)

Section SpeedFacts.
Context {pfts01 : PortFeatures01.t} {pfts04 : PortFeatures04.t}.

Lemma speed_custom (self : Interface) (v : num) :
  _custom_speed self = Some v -> speed self = (Ok (Some v), []).
Proof. intros H; unfold speed; now rewrite H. Qed.

(** C3. Once a custom speed other than None is set, zero included, the
    [speed] property returns exactly that value and logs nothing, for
    every feature bitmask, every state of the switch and every table of
    feature bits: the features are not looked at. *)
Theorem custom_speed_always_wins (self : Interface) (v : num) :
  (_custom_speed self = Some v -> speed self = (Ok (Some v), []))
  /\ speed (snd (set_custom_speed (Some v) self)) = (Ok (Some v), [])
  /\ speed (snd (set_custom_speed (Some (PyInt 0)) self))
     = (Ok (Some (PyInt 0)), [])
  /\ (forall fts sw,
        speed (mkInterface (name self) (port_number self) sw (address self)
                 (state self) fts (nni self) (stats self) (Some v)
                 (available_tags self) (metadata self))
        = (Ok (Some v), [])).
Proof.
  split; [apply speed_custom |].
  split; [now apply speed_custom |].
  split; [now apply speed_custom |].
  intros; now apply speed_custom.
Qed.

Lemma has_feature_Some (fts mask : Z) :
  has_feature (Some fts) mask = negb (Z.land fts mask =? 0).
Proof.
  simpl; destruct (fts =? 0) eqn:E; [| reflexivity].
  apply Z.eqb_eq in E; subst; now rewrite Z.land_0_l.
Qed.

Lemma land_lor_0 (a b c : Z) :
  Z.land a (Z.lor b c) = 0 <-> Z.land a b = 0 /\ Z.land a c = 0.
Proof. rewrite Z.land_lor_distr_r; apply Z.lor_eq_0_iff. Qed.

Lemma speed_of_10G : speed_of (10 * 10 ^ 9) 8
                     = ret (Some (bytes_per_second (10 * 10 ^ 9))).
Proof. vm_compute; reflexivity. Qed.

Lemma speed_of_1G : speed_of (10 ^ 9) 8 = ret (Some (bytes_per_second (10 ^ 9))).
Proof. vm_compute; reflexivity. Qed.

Lemma speed_of_100M : speed_of (100 * 10 ^ 6) 8
                      = ret (Some (bytes_per_second (100 * 10 ^ 6))).
Proof. vm_compute; reflexivity. Qed.

Lemma speed_of_10M : speed_of (10 * 10 ^ 6) 8
                     = ret (Some (bytes_per_second (10 * 10 ^ 6))).
Proof. vm_compute; reflexivity. Qed.

Lemma speed_of_1T : speed_of (10 ^ 12) 8
                    = ret (Some (bytes_per_second (10 ^ 12))).
Proof. vm_compute; reflexivity. Qed.

Lemma speed_of_100G : speed_of (100 * 10 ^ 9) 8
                      = ret (Some (bytes_per_second (100 * 10 ^ 9))).
Proof. vm_compute; reflexivity. Qed.

Lemma speed_of_40G : speed_of (40 * 10 ^ 9) 8
                     = ret (Some (bytes_per_second (40 * 10 ^ 9))).
Proof. vm_compute; reflexivity. Qed.

(** The float of each tier is the tier's number of bytes per second. *)
Lemma tier_speeds_exact :
  Forall (fun bits =>
            float_compare_int (exact_float (bits / 8)) (bits / 8) = Some Eq
            /\ 8 * (bits / 8) = bits)
    [10 * 10 ^ 9; 10 ^ 9; 100 * 10 ^ 6; 10 * 10 ^ 6;
     10 ^ 12; 100 * 10 ^ 9; 40 * 10 ^ 9].
Proof. repeat constructor. Qed.

Lemma tier_a_speed_cases (self : Interface) :
  _get_v0x01_v0x04_speed self = ret None
  \/ exists v, In v tier_a_speeds /\ _get_v0x01_v0x04_speed self = ret (Some v).
Proof.
  unfold _get_v0x01_v0x04_speed, tier_a_speeds.
  rewrite speed_of_10G, speed_of_1G, speed_of_100M, speed_of_10M.
  repeat match goal with
         | |- context [if has_feature ?f ?m then _ else _] =>
             destruct (has_feature f m)
         end;
    [right; eexists; split; [| reflexivity]; simpl; tauto .. | now left].
Qed.

Lemma tier_b_speed_cases (self : Interface) :
  _get_v0x04_speed self = ret None
  \/ exists v, In v tier_b_speeds /\ _get_v0x04_speed self = ret (Some v).
Proof.
  unfold _get_v0x04_speed, tier_b_speeds.
  rewrite speed_of_1T, speed_of_100G, speed_of_40G.
  repeat match goal with
         | |- context [if has_feature ?f ?m then _ else _] =>
             destruct (has_feature f m)
         end;
    [right; eexists; split; [| reflexivity]; simpl; tauto .. | now left].
Qed.

Lemma tier_a_nothing (self : Interface) (fts : Z) :
  features self = Some fts -> Z.land fts tier_a_mask = 0 ->
  _get_v0x01_v0x04_speed self = ret None.
Proof.
  intros Hf H; unfold tier_a_mask in H.
  apply land_lor_0 in H; destruct H as [H10G H].
  apply land_lor_0 in H; destruct H as [H1G H].
  apply land_lor_0 in H; destruct H as [H100M H10M].
  unfold _get_v0x01_v0x04_speed; rewrite Hf, !has_feature_Some.
  now rewrite H10G, H1G, H100M, H10M.
Qed.

Lemma tier_b_chosen (self : Interface) (fts : Z) :
  features self = Some fts -> _get_v0x04_speed self = ret (tier_b_choice fts).
Proof.
  intros Hf; unfold _get_v0x04_speed, tier_b_choice.
  rewrite Hf, !has_feature_Some, speed_of_1T, speed_of_100G, speed_of_40G.
  repeat match goal with
         | |- context [if negb ?c then _ else _] => destruct (negb c)
         end; reflexivity.
Qed.

Lemma tiers_apart (v : num) : In v tier_a_speeds -> In v tier_b_speeds -> False.
Proof.
  unfold tier_a_speeds, tier_b_speeds; simpl; intros Ha Hb.
  repeat match goal with
         | H : _ \/ _ |- _ => destruct H as [H | H]
         | H : False |- _ => destruct H
         end; subst; vm_compute in Hb; discriminate Hb.
Qed.

Lemma get_of_features_speed_cases (self : Interface) :
  (exists v, In v (tier_a_speeds ++ tier_b_speeds)
             /\ get_of_features_speed self = (Ok (Some v), []))
  \/ get_of_features_speed self
     = (Ok None,
        [mkLog (port_number self) (short_switch_id (Switch.id (switch self)))
           (features self)]).
Proof.
  unfold get_of_features_speed.
  destruct (tier_a_speed_cases self) as [Ha | [v [Hin Ha]]]; rewrite Ha.
  - destruct (_is_v0x04 self).
    + destruct (tier_b_speed_cases self) as [Hb | [v [Hin Hb]]]; rewrite Hb.
      * now right.
      * left; exists v; split; [apply in_or_app; now right | reflexivity].
    + now right.
  - left; exists v; split; [apply in_or_app; now left | reflexivity].
Qed.

Lemma get_of_features_speed_tier_b (self : Interface) :
  _get_v0x01_v0x04_speed self = ret None ->
  fst (get_of_features_speed self)
  = if _is_v0x04 self then fst (_get_v0x04_speed self) else Ok None.
Proof.
  intros Ha; unfold get_of_features_speed; rewrite Ha.
  destruct (_is_v0x04 self); [| reflexivity].
  destruct (tier_b_speed_cases self) as [Hb | [v [_ Hb]]]; now rewrite Hb.
Qed.

Lemma _is_v0x04_iff (self : Interface) :
  _is_v0x04 self = true
  <-> Switch.is_connected (switch self) = true
      /\ Switch.connection_protocol_version (switch self) = Some 4.
Proof.
  unfold _is_v0x04; rewrite andb_true_iff.
  destruct (Switch.connection_protocol_version (switch self)) as [v |].
  - rewrite Z.eqb_eq; split; intros [H1 H2]; split; congruence.
  - split; intros [_ H]; discriminate H.
Qed.

(** C4. With no custom speed and a feature bitmask that sets none of the
    bits of the common table (10 Mbps to 10 Gbps), the speed is unknown
    (None) whenever the switch is not connected with protocol version
    0x04; when it is, the speed is that of the first of the 1 Tbps,
    100 Gbps and 40 Gbps bits that is set: 10^12/8, 100*10^9/8 or
    40*10^9/8 bytes per second.  And whenever the speed of an Interface
    without custom speed is one of these three, the common table matched
    nothing and the switch is connected with version 0x04. *)
Theorem tier_b_speed_needs_v0x04 (self : Interface) :
  _custom_speed self = None ->
  (forall fts,
      features self = Some fts -> Z.land fts tier_a_mask = 0 ->
      (_is_v0x04 self = false -> fst (speed self) = Ok None)
      /\ (_is_v0x04 self = true -> fst (speed self) = Ok (tier_b_choice fts)))
  /\ (forall v,
        fst (speed self) = Ok (Some v) -> In v tier_b_speeds ->
        fst (_get_v0x01_v0x04_speed self) = Ok None
        /\ Switch.is_connected (switch self) = true
        /\ Switch.connection_protocol_version (switch self) = Some 4).
Proof.
  intros Hc; unfold speed; rewrite Hc; split.
  - intros fts Hf Hz.
    rewrite (get_of_features_speed_tier_b _ (tier_a_nothing _ _ Hf Hz)).
    split; intros ->; [reflexivity |].
    now rewrite (tier_b_chosen _ _ Hf).
  - intros v Hv Hin.
    destruct (tier_a_speed_cases self) as [Ha | [w [Hw Ha]]].
    + rewrite (get_of_features_speed_tier_b _ Ha) in Hv.
      rewrite Ha; split; [reflexivity |].
      apply _is_v0x04_iff.
      destruct (_is_v0x04 self); [reflexivity | discriminate Hv].
    + exfalso; unfold get_of_features_speed in Hv; rewrite Ha in Hv.
      simpl in Hv; injection Hv as ->.
      exact (tiers_apart _ Hw Hin).
Qed.

End SpeedFacts.

Lemma tier_b_speed_needs_v0x04_witness :
  fst (speed (pfts01 := openflow10) (pfts04 := openflow13)
         (port2 sw_down (Some 896) None)) = Ok None
  /\ fst (speed (pfts01 := openflow10) (pfts04 := openflow13)
            (port2 sw_v0x01 (Some 896) None)) = Ok None
  /\ fst (speed (pfts01 := openflow10) (pfts04 := openflow13)
            (port2 sw_v0x04 (Some 896) None))
     = Ok (Some (bytes_per_second (10 ^ 12))).
Proof.
  split; [| split].
  - exact (proj1 (proj1 (@tier_b_speed_needs_v0x04 openflow10 openflow13
                           (port2 sw_down (Some 896) None) eq_refl)
                    896 eq_refl eq_refl) eq_refl).
  - exact (proj1 (proj1 (@tier_b_speed_needs_v0x04 openflow10 openflow13
                           (port2 sw_v0x01 (Some 896) None) eq_refl)
                    896 eq_refl eq_refl) eq_refl).
  - exact (proj2 (proj1 (@tier_b_speed_needs_v0x04 openflow10 openflow13
                           (port2 sw_v0x04 (Some 896) None) eq_refl)
                    896 eq_refl eq_refl) eq_refl).
Defined.

(** ** The speed as a value *)

Lemma fst_bind {A B} (m : Py A) (k : A -> Py B) :
  fst (bind m k)
  = match fst m with
    | Ok a => fst (k a)
    | Raise e => Raise e
    end.
Proof.
  destruct m as [[a | e] l]; simpl; [| reflexivity].
  now destruct (k a).
Qed.

Section SpeedValues.
Context {pfts01 : PortFeatures01.t} {pfts04 : PortFeatures04.t}.

Lemma as_dict_speed (self : Interface) (r : option num)
    (l : list LogRecord) :
  speed self = (Ok r, l) ->
  exists d, as_dict self = (Ok d, l)
            /\ dict_get d "speed" = Some (opt_val VNum r).
Proof.
  intros H; unfold as_dict; rewrite H; unfold bind.
  destruct (stats self) as [rendered |]; simpl; rewrite app_nil_r;
    eexists; (split; [reflexivity |]); reflexivity.
Qed.

Lemma tier_speed_is_float (v : num) :
  In v (tier_a_speeds ++ tier_b_speeds) -> exists f, v = PyFloat f.
Proof.
  intros H; apply in_app_or in H; unfold tier_a_speeds, tier_b_speeds in H.
  simpl in H; unfold bytes_per_second in H.
  repeat match goal with
         | H : _ \/ _ |- _ => destruct H as [H | H]
         | H : False |- _ => destruct H
         end; subst; eauto.
Qed.

Lemma get_of_features_speed_tier_a (self : Interface) (v : num) :
  _get_v0x01_v0x04_speed self = ret (Some v) ->
  get_of_features_speed self = (Ok (Some v), []).
Proof. intros H; unfold get_of_features_speed; now rewrite H. Qed.

Lemma bytes_per_second_10G :
  bytes_per_second (10 * 10 ^ 9) = PyFloat (exact_float 1250000000).
Proof. vm_compute; reflexivity. Qed.

Lemma bytes_per_second_1T :
  bytes_per_second (10 ^ 12) = PyFloat (exact_float 125000000000).
Proof. vm_compute; reflexivity. Qed.

(** C10. Without a custom speed, a speed that [speed] returns is one of
    the seven quotients by 8 of the tables, a float and never an integer,
    and [as_dict] holds that same float under its key speed; the 10 Gbps
    bit gives the float 1250000000.0 and the 1 Tbps bit the float
    125000000000.0.  With a custom speed, [speed] returns and [as_dict]
    holds the value exactly as it was set, integer or float. *)
Theorem feature_speed_is_a_float (self : Interface) :
  (_custom_speed self = None ->
   forall v l,
     speed self = (Ok (Some v), l) ->
     (exists f, v = PyFloat f)
     /\ (forall z, v <> PyInt z)
     /\ In v (tier_a_speeds ++ tier_b_speeds)
     /\ exists d, as_dict self = (Ok d, l)
                  /\ dict_get d "speed" = Some (VNum v))
  /\ (forall v,
        _custom_speed self = Some v ->
        speed self = (Ok (Some v), [])
        /\ exists d, as_dict self = (Ok d, [])
                     /\ dict_get d "speed" = Some (VNum v))
  /\ (_custom_speed self = None ->
      has_feature (features self) PortFeatures01.OFPPF_10GB_FD = true ->
      speed self = (Ok (Some (PyFloat (exact_float 1250000000))), []))
  /\ (_custom_speed self = None ->
      forall fts,
        features self = Some fts -> Z.land fts tier_a_mask = 0 ->
        _is_v0x04 self = true ->
        Z.land fts PortFeatures04.OFPPF_1TB_FD <> 0 ->
        fst (speed self) = Ok (Some (PyFloat (exact_float 125000000000)))).
Proof.
  split; [| split; [| split]].
  - intros Hc v l Hs.
    assert (Hin : In v (tier_a_speeds ++ tier_b_speeds)).
    { unfold speed in Hs; rewrite Hc in Hs.
      destruct (get_of_features_speed_cases self) as [[w [Hw E]] | E];
        rewrite E in Hs; [| discriminate Hs].
      injection Hs as <- _; exact Hw. }
    destruct (tier_speed_is_float v Hin) as [f ->].
    split; [eauto |]; split; [discriminate |]; split; [assumption |].
    exact (as_dict_speed self _ l Hs).
  - intros v Hc; split; [now apply speed_custom |].
    exact (as_dict_speed self _ [] (speed_custom self v Hc)).
  - intros Hc H10; unfold speed; rewrite Hc, <- bytes_per_second_10G.
    apply get_of_features_speed_tier_a.
    unfold _get_v0x01_v0x04_speed; rewrite H10; apply speed_of_10G.
  - intros Hc fts Hf Hz Hv H1T; unfold speed; rewrite Hc.
    rewrite (get_of_features_speed_tier_b _ (tier_a_nothing _ _ Hf Hz)), Hv.
    rewrite (tier_b_chosen _ _ Hf), <- bytes_per_second_1T.
    unfold tier_b_choice; apply Z.eqb_neq in H1T; rewrite H1T; reflexivity.
Qed.

End SpeedValues.

Lemma feature_speed_is_a_float_witness :
  speed (pfts01 := openflow10) (pfts04 := openflow13)
    (port2 sw_down (Some 64) None)
  = (Ok (Some (PyFloat (exact_float 1250000000))), [])
  /\ exact_float 1250000000 = S754_finite false 5242880000000000 (-22)
  /\ float_compare_int (exact_float 1250000000) 1250000000 = Some Eq
  /\ speed (pfts01 := openflow10) (pfts04 := openflow13)
       (port2 sw_down (Some 64) (Some (PyInt 1250000000)))
     = (Ok (Some (PyInt 1250000000)), []).
Proof.
  assert (Hn : _custom_speed (port2 sw_down (Some 64) None) = None)
    by (vm_compute; reflexivity).
  assert (Hf : has_feature (features (port2 sw_down (Some 64) None))
                 (PortFeatures01.OFPPF_10GB_FD (t := openflow10)) = true)
    by (vm_compute; reflexivity).
  assert (Hc : _custom_speed
                 (port2 sw_down (Some 64) (Some (PyInt 1250000000)))
               = Some (PyInt 1250000000))
    by (vm_compute; reflexivity).
  split; [| split; [| split]].
  - exact (proj1 (proj2 (proj2 (@feature_speed_is_a_float openflow10
                                  openflow13 (port2 sw_down (Some 64) None))))
             Hn Hf).
  - vm_compute; reflexivity.
  - vm_compute; reflexivity.
  - exact (proj1 (proj1 (proj2 (@feature_speed_is_a_float openflow10
                                  openflow13
                                  (port2 sw_down (Some 64)
                                     (Some (PyInt 1250000000)))))
                    (PyInt 1250000000) Hc)).
Defined.

(** ** Human-readable speed *)

Lemma py_round_nearest (s : bool) (m : positive) (e n : Z) :
  py_round (S754_finite s m e) = Ok n ->
  if 0 <=? e then n = signed s m * 2 ^ e
  else Z.abs (2 * (n * 2 ^ (- e) - signed s m)) <= 2 ^ (- e)
       /\ (Z.abs (2 * (n * 2 ^ (- e) - signed s m)) = 2 ^ (- e) ->
           Z.even n = true).
Proof.
  unfold py_round; destruct (0 <=? e) eqn:He; [now intros [= <-] |].
  apply Z.leb_gt in He.
  assert (Hd : 0 < 2 ^ (- e)) by (apply Z.pow_pos_nonneg; lia).
  pose proof (Z.div_mod (signed s m) (2 ^ (- e)) ltac:(lia)) as Hdm.
  pose proof (Z.mod_pos_bound (signed s m) (2 ^ (- e)) Hd) as Hr.
  set (d := 2 ^ (- e)) in *.
  set (q := signed s m / d) in *.
  set (r := signed s m mod d) in *.
  destruct (2 * r ?= d) eqn:C.
  - apply Z.compare_eq in C.
    destruct (Z.even q) eqn:Eq; intros [= <-].
    + split; [| auto].
      replace (2 * (q * d - signed s m)) with (- d) by lia. lia.
    + split.
      * replace (2 * ((q + 1) * d - signed s m)) with d by lia. lia.
      * intros _; rewrite Z.add_1_r, Z.even_succ, <- Z.negb_even, Eq.
        reflexivity.
  - assert (Hlt : 2 * r < d) by (apply Z.compare_lt_iff; exact C).
    intros [= <-].
    replace (2 * (q * d - signed s m)) with (- (2 * r)) by lia.
    split; [lia | intros; exfalso; lia].
  - assert (Hgt : d < 2 * r) by (apply Z.compare_gt_iff; exact C).
    intros [= <-].
    replace (2 * ((q + 1) * d - signed s m)) with (2 * d - 2 * r) by lia.
    split; [lia | intros; exfalso; lia].
Qed.

Lemma Some_compare_Lt (x y : Z) : Some (x ?= y) = Some Lt <-> x < y.
Proof.
  rewrite <- Z.compare_lt_iff; split; [now intros [= ->] | now intros ->].
Qed.

Lemma float_below_is_not_equal (f : float) (a b : Z) :
  a <= b -> float_compare_int f a = Some Lt -> float_compare_int f b = Some Lt.
Proof.
  intros Hab; destruct f as [s | s | | s m e]; unfold float_compare_int;
    try congruence.
  - rewrite !Some_compare_Lt; lia.
  - destruct (0 <=? e) eqn:He; rewrite !Some_compare_Lt; [lia |].
    apply Z.leb_gt in He.
    assert (0 < 2 ^ (- e)) by (apply Z.pow_pos_nonneg; lia).
    nia.
Qed.

Lemma num_below_is_not_equal (x : num) (a b : Z) :
  a <= b -> num_compare_int x a = Some Lt -> num_compare_int x b = Some Lt.
Proof.
  intros Hab; destruct x as [z | f]; unfold num_compare_int.
  - rewrite !Some_compare_Lt; lia.
  - now apply float_below_is_not_equal.
Qed.

Section HumanReadable.
Context {pfts01 : PortFeatures01.t} {pfts04 : PortFeatures04.t}.

Lemma get_hr_speed_of (self : Interface) (v s : num) :
  fst (speed self) = Ok (Some v) -> num_mul v 8 = Ok s ->
  fst (get_hr_speed self)
  = if num_eq_int s (10 ^ 12) then Ok "1 Tbps"
    else if num_ge_int s (10 ^ 9) then rounded_in s (10 ^ 9) "Gbps"
    else rounded_in s (10 ^ 6) "Mbps".
Proof.
  intros Hv Hs; unfold get_hr_speed; rewrite fst_bind, Hv, fst_bind.
  unfold lift at 1; cbn [fst]; rewrite Hs.
  destruct (num_eq_int s (10 ^ 12)); [reflexivity |].
  unfold rounded_in.
  destruct (num_ge_int s (10 ^ 9)).
  - rewrite fst_bind; unfold lift at 1; cbn [fst].
    destruct (num_truediv s (10 ^ 9)) as [q | e]; [| reflexivity].
    rewrite fst_bind; unfold lift; cbn [fst].
    destruct (py_round q); reflexivity.
  - rewrite fst_bind; unfold lift at 1; cbn [fst].
    destruct (num_truediv s (10 ^ 6)) as [q | e]; [| reflexivity].
    rewrite fst_bind; unfold lift; cbn [fst].
    destruct (py_round q); reflexivity.
Qed.

Lemma get_hr_speed_unknown (self : Interface) :
  fst (speed self) = Ok None -> fst (get_hr_speed self) = Ok ""%string.
Proof. intros H; unfold get_hr_speed; now rewrite fst_bind, H. Qed.

Lemma num_mul_8 (v : num) : exists s, num_mul v 8 = Ok s.
Proof. destruct v as [z | f]; simpl; eauto. Qed.

(** The names of the speeds that the feature bits give. *)
Lemma feature_speed_names (self : Interface) :
  _custom_speed self = None ->
  In (fst (get_hr_speed self))
     [Ok ""; Ok "10 Gbps"; Ok "1 Gbps"; Ok "100 Mbps"; Ok "10 Mbps";
      Ok "1 Tbps"; Ok "100 Gbps"; Ok "40 Gbps"]%string.
Proof.
  intros Hc.
  destruct (get_of_features_speed_cases self) as [[v [Hin E]] | E].
  - assert (Hs : fst (speed self) = Ok (Some v))
      by (unfold speed; now rewrite Hc, E).
    apply in_app_or in Hin; unfold tier_a_speeds, tier_b_speeds in Hin.
    cbn [In] in Hin.
    repeat match goal with
           | H : _ \/ _ |- _ => destruct H as [H | H]
           | H : False |- _ => destruct H
           end; subst v;
      (erewrite get_hr_speed_of; [| exact Hs | vm_compute; reflexivity]);
      vm_compute; tauto.
  - left; symmetry; apply get_hr_speed_unknown.
    unfold speed; now rewrite Hc, E.
Qed.

(** C8. [get_hr_speed] gives the empty string when the speed is unknown.
    Otherwise, with s the speed times 8: s equal to 10^12 gives 1 Tbps;
    any other s of at least 10^9 gives round(s / 10^9) followed by Gbps;
    s below 10^9 gives round(s / 10^6) followed by Mbps, where the
    division is Python's true division and round goes to the nearest
    integer.  So 12.5 * 10^9 bytes per second, integer or float, reads
    100 Gbps, 125 * 10^9 reads 1 Tbps and a custom speed of 0 reads
    0 Mbps. *)
Theorem get_hr_speed_cases (self : Interface) :
  (fst (speed self) = Ok None -> fst (get_hr_speed self) = Ok ""%string)
  /\ (forall v s,
        fst (speed self) = Ok (Some v) -> num_mul v 8 = Ok s ->
        (num_compare_int s (10 ^ 12) = Some Eq ->
         fst (get_hr_speed self) = Ok "1 Tbps"%string)
        /\ (num_compare_int s (10 ^ 12) <> Some Eq ->
            num_ge_int s (10 ^ 9) = true ->
            fst (get_hr_speed self) = rounded_in s (10 ^ 9) "Gbps")
        /\ (num_compare_int s (10 ^ 9) = Some Lt ->
            fst (get_hr_speed self) = rounded_in s (10 ^ 6) "Mbps"))
  /\ (forall v,
        v = PyInt 12500000000 \/ v = PyFloat (exact_float 12500000000) ->
        fst (speed self) = Ok (Some v) ->
        fst (get_hr_speed self) = Ok "100 Gbps"%string)
  /\ (forall v,
        v = PyInt 125000000000 \/ v = PyFloat (exact_float 125000000000) ->
        fst (speed self) = Ok (Some v) ->
        fst (get_hr_speed self) = Ok "1 Tbps"%string)
  /\ (_custom_speed self = Some (PyInt 0) ->
      fst (speed self) = Ok (Some (PyInt 0))
      /\ fst (get_hr_speed self) = Ok "0 Mbps"%string).
Proof.
  split; [apply get_hr_speed_unknown |].
  split; [| split; [| split]].
  - intros v s Hv Hs; rewrite (get_hr_speed_of self v s Hv Hs).
    unfold num_eq_int, num_ge_int; split; [| split].
    + now intros ->.
    + intros Hne Hge.
      destruct (num_compare_int s (10 ^ 12)) as [[| |] |];
        try reflexivity; [congruence | | |];
        destruct (num_compare_int s (10 ^ 9)) as [[| |] |];
        try reflexivity; discriminate Hge.
    + intros Hlt.
      rewrite (num_below_is_not_equal s (10 ^ 9) (10 ^ 12) ltac:(lia) Hlt).
      now rewrite Hlt.
  - intros v [-> | ->] Hs;
      (erewrite get_hr_speed_of; [| exact Hs | vm_compute; reflexivity]);
      vm_compute; reflexivity.
  - intros v [-> | ->] Hs;
      (erewrite get_hr_speed_of; [| exact Hs | vm_compute; reflexivity]);
      vm_compute; reflexivity.
  - intros Hc.
    assert (Hs : fst (speed self) = Ok (Some (PyInt 0)))
      by now rewrite (speed_custom self _ Hc).
    split; [exact Hs |].
    erewrite get_hr_speed_of; [| exact Hs | vm_compute; reflexivity].
    vm_compute; reflexivity.
Qed.

End HumanReadable.

Lemma get_hr_speed_cases_witness :
  fst (get_hr_speed (pfts01 := openflow10) (pfts04 := openflow13)
         (port2 sw_down (Some 64) None)) = Ok "10 Gbps"%string
  /\ fst (get_hr_speed (pfts01 := openflow10) (pfts04 := openflow13)
            (port2 sw_down None (Some (PyInt 0)))) = Ok "0 Mbps"%string
  /\ fst (get_hr_speed (pfts01 := openflow10) (pfts04 := openflow13)
            (port2 sw_down None (Some (PyInt 312500000))))
     = Ok "2 Gbps"%string
  /\ fst (get_hr_speed (pfts01 := openflow10) (pfts04 := openflow13)
            (port2 sw_down None (Some (PyInt 62437500))))
     = Ok "500 Mbps"%string.
Proof.
  assert (H10 : fst (speed (pfts01 := openflow10) (pfts04 := openflow13)
                       (port2 sw_down (Some 64) None))
                = Ok (Some (bytes_per_second (10 * 10 ^ 9))))
    by (vm_compute; reflexivity).
  assert (H0 : _custom_speed (port2 sw_down None (Some (PyInt 0)))
               = Some (PyInt 0))
    by (vm_compute; reflexivity).
  assert (H2 : fst (speed (pfts01 := openflow10) (pfts04 := openflow13)
                      (port2 sw_down None (Some (PyInt 312500000))))
               = Ok (Some (PyInt 312500000)))
    by (vm_compute; reflexivity).
  assert (H5 : fst (speed (pfts01 := openflow10) (pfts04 := openflow13)
                      (port2 sw_down None (Some (PyInt 62437500))))
               = Ok (Some (PyInt 62437500)))
    by (vm_compute; reflexivity).
  split; [| split; [| split]].
  - rewrite (proj1 (proj2 (proj1 (proj2 (@get_hr_speed_cases openflow10
                                           openflow13 _))
                             _ (PyFloat (exact_float (10 * 10 ^ 9)))
                             H10 ltac:(vm_compute; reflexivity))));
      [vm_compute; reflexivity | vm_compute; discriminate
       | vm_compute; reflexivity].
  - exact (proj2 (proj2 (proj2 (proj2 (proj2 (@get_hr_speed_cases openflow10
                                                openflow13 _)))) H0)).
  - rewrite (proj1 (proj2 (proj1 (proj2 (@get_hr_speed_cases openflow10
                                           openflow13 _))
                             _ (PyInt 2500000000)
                             H2 ltac:(vm_compute; reflexivity))));
      [vm_compute; reflexivity | vm_compute; discriminate
       | vm_compute; reflexivity].
  - rewrite (proj2 (proj2 (proj1 (proj2 (@get_hr_speed_cases openflow10
                                           openflow13 _))
                             _ (PyInt 499500000)
                             H5 ltac:(vm_compute; reflexivity))));
      [vm_compute; reflexivity | vm_compute; reflexivity].
Defined.

(** * Beyond the pool and the speed *)

(** ** Equality of Interfaces and of endpoints *)

Lemma address_eq_refl (a : option string) : address_eq a a = true.
Proof. now apply address_eq_true_iff. Qed.

Lemma Interface_eq_iff (i j : Interface) :
  Interface_eq i (OInterface j) = true
  <-> port_number i = port_number j
      /\ name i = name j
      /\ address i = address j
      /\ Switch.dpid (switch i) = Switch.dpid (switch j).
Proof.
  simpl; rewrite !andb_true_iff, Z.eqb_eq, !String.eqb_eq, address_eq_true_iff.
  tauto.
Qed.

Lemma Interface_eq_str_iff (i : Interface) (s : string) :
  Interface_eq i (OStr s) = true <-> address i = Some s.
Proof. simpl; apply address_eq_true_iff. Qed.

Lemma endpoint_eq_refl (a : Endpoint) : endpoint_eq a a = true.
Proof.
  destruct a as [s | i]; cbn [endpoint_eq]; [apply String.eqb_refl |].
  apply Interface_eq_iff; auto.
Qed.

Lemma endpoint_eq_sym (a b : Endpoint) : endpoint_eq a b = endpoint_eq b a.
Proof.
  destruct a as [s | i], b as [s' | j]; cbn [endpoint_eq]; try reflexivity.
  - apply String.eqb_sym.
  - apply eq_true_iff_eq; rewrite !Interface_eq_iff.
    split; intros (H1 & H2 & H3 & H4); auto.
Qed.

(** An Interface matches at most one endpoint of a family of pairwise
    different ones: whatever equals it is equal to each other. *)
Lemma iface_matches_agree (i : Interface) (x y : Endpoint) :
  endpoint_eq (EIface i) x = true -> endpoint_eq (EIface i) y = true ->
  endpoint_eq x y = true.
Proof.
  destruct x as [s | j], y as [s' | k]; cbn [endpoint_eq];
    rewrite ?Interface_eq_iff, ?Interface_eq_str_iff, ?String.eqb_eq.
  - congruence.
  - intros Hs (_ & _ & Ha & _); congruence.
  - intros (_ & _ & Ha & _) Hs; congruence.
  - intros (H1 & H2 & H3 & H4) (K1 & K2 & K3 & K4).
    repeat split; congruence.
Qed.

(** ** The endpoint list *)

Lemma distinct_cons (a : Endpoint * Z) (l : list (Endpoint * Z)) :
  distinct_endpoints (a :: l)
  <-> (forall b, In b l -> endpoint_eq (fst a) (fst b) = false)
      /\ distinct_endpoints l.
Proof.
  unfold distinct_endpoints; split.
  - intros H; split.
    + intros b Hb; destruct (endpoint_eq (fst a) (fst b)) eqn:E; [| reflexivity].
      destruct (In_nth_error _ _ Hb) as [j Hj].
      specialize (H 0%nat (S j) a b eq_refl Hj E); discriminate H.
    + intros i j x y Hx Hy E.
      specialize (H (S i) (S j) x y Hx Hy E); now injection H.
  - intros [Ha Hl] i j x y Hx Hy E.
    destruct i as [| i], j as [| j]; simpl in Hx, Hy.
    + reflexivity.
    + injection Hx as <-; apply nth_error_In in Hy.
      rewrite (Ha y Hy) in E; discriminate E.
    + injection Hy as <-; apply nth_error_In in Hx.
      rewrite endpoint_eq_sym, (Ha x Hx) in E; discriminate E.
    + f_equal; exact (Hl i j x y Hx Hy E).
Qed.

Lemma distinct_nil : distinct_endpoints [].
Proof. intros i j a b Ha; destruct i; discriminate Ha. Qed.

Lemma distinct_without (l1 l2 : list (Endpoint * Z)) (y : Endpoint * Z) :
  distinct_endpoints (l1 ++ y :: l2) ->
  distinct_endpoints (l1 ++ l2)
  /\ forall z, In z (l1 ++ l2) -> endpoint_eq (fst z) (fst y) = false.
Proof.
  induction l1 as [| a l1 IH]; simpl; intros H; apply distinct_cons in H;
    destruct H as [Ha Hl].
  - split; [assumption |].
    intros z Hz; rewrite endpoint_eq_sym; auto.
  - destruct (IH Hl) as [Hd Hy]; split.
    + apply distinct_cons; split; [| assumption].
      intros b Hb; apply Ha.
      apply in_app_or in Hb; apply in_or_app; simpl; tauto.
    + intros z [<- | Hz]; [| auto].
      apply Ha, in_or_app; simpl; tauto.
Qed.

Lemma distinct_with_last (l : list (Endpoint * Z)) (e : Endpoint) (t : Z) :
  distinct_endpoints l ->
  (forall z, In z l -> endpoint_eq e (fst z) = false) ->
  distinct_endpoints (l ++ [(e, t)]).
Proof.
  induction l as [| a l IH]; simpl; intros Hd He.
  - apply distinct_cons; split; [intros b [] | apply distinct_nil].
  - apply distinct_cons in Hd; destruct Hd as [Ha Hl].
    apply distinct_cons; split.
    + intros b Hb; apply in_app_or in Hb; destruct Hb as [Hb | [<- | []]];
        [auto |].
      simpl; rewrite endpoint_eq_sym; auto.
    + apply IH; auto.
Qed.

Lemma get_endpoint_none (e : Endpoint) (l : list (Endpoint * Z)) :
  get_endpoint e l = None
  <-> forall z, In z l -> endpoint_eq e (fst z) = false.
Proof.
  unfold get_endpoint; split.
  - intros H z Hz; exact (find_none _ _ H z Hz).
  - induction l as [| a l IH]; simpl; intros H; [reflexivity |].
    rewrite (H a (or_introl eq_refl)); apply IH; auto.
Qed.

Lemma get_endpoint_some (e : Endpoint) (l : list (Endpoint * Z))
    (x : Endpoint * Z) :
  get_endpoint e l = Some x ->
  exists l1 l2,
    l = l1 ++ x :: l2 /\ endpoint_eq e (fst x) = true
    /\ forall z, In z l1 -> endpoint_eq e (fst z) = false.
Proof.
  unfold get_endpoint; induction l as [| a l IH]; simpl; [discriminate |].
  destruct (endpoint_eq e (fst a)) eqn:E.
  - intros [= <-]; exists [], l; repeat split; auto; intros z [].
  - intros H; destruct (IH H) as (l1 & l2 & -> & Hx & H1).
    exists (a :: l1), l2; repeat split; auto.
    intros z [<- | Hz]; auto.
Qed.

Lemma get_endpoint_app (e : Endpoint) (l1 l2 : list (Endpoint * Z)) :
  get_endpoint e (l1 ++ l2)
  = match get_endpoint e l1 with
    | Some x => Some x
    | None => get_endpoint e l2
    end.
Proof.
  unfold get_endpoint; induction l1 as [| a l1 IH]; simpl; [reflexivity |].
  now destruct (endpoint_eq e (fst a)).
Qed.

Lemma entries_remove_at (x : Endpoint * Z) (l1 l2 : list (Endpoint * Z)) :
  (forall z, In z l1 -> endpoint_eq (fst z) (fst x) = false) ->
  entries_remove x (l1 ++ x :: l2) = Some (l1 ++ l2).
Proof.
  induction l1 as [| a l1 IH]; simpl; intros H.
  - unfold entry_eq; now rewrite endpoint_eq_refl, Z.eqb_refl.
  - unfold entry_eq at 1; rewrite (H a (or_introl eq_refl)); simpl.
    rewrite IH; auto.
Qed.

Lemma filter_all (f : Endpoint * Z -> bool) (l : list (Endpoint * Z)) :
  (forall z, In z l -> f z = true) -> filter f l = l.
Proof.
  induction l as [| a l IH]; simpl; intros H; [reflexivity |].
  rewrite (H a (or_introl eq_refl)); f_equal; auto.
Qed.

Lemma get_endpoint_others (e : Endpoint) (l : list (Endpoint * Z)) :
  get_endpoint e (others e l) = None.
Proof.
  apply get_endpoint_none; intros z Hz.
  apply filter_In in Hz; destruct Hz as [_ Hz].
  now apply negb_true_iff in Hz.
Qed.

Lemma add_endpoint_absent (e : Endpoint) (t : Z) (l : list (Endpoint * Z)) :
  get_endpoint e l = None -> add_endpoint e t l = (Ok tt, l ++ [(e, t)]).
Proof. intros H; unfold add_endpoint; now rewrite H. Qed.

Lemma get_endpoint_last (e : Endpoint) (t : Z) (l : list (Endpoint * Z)) :
  get_endpoint e l = None -> get_endpoint e (l ++ [(e, t)]) = Some (e, t).
Proof.
  intros H; rewrite get_endpoint_app, H; unfold get_endpoint; simpl.
  now rewrite endpoint_eq_refl.
Qed.

(** In a list of distinct endpoints, deleting [e] takes out the first
    entry that matches it. *)
Lemma delete_endpoint_first (e : Endpoint) (x : Endpoint * Z)
    (l1 l2 : list (Endpoint * Z)) :
  distinct_endpoints (l1 ++ x :: l2) ->
  get_endpoint e (l1 ++ x :: l2) = Some x ->
  delete_endpoint e (l1 ++ x :: l2) = (Ok tt, l1 ++ l2).
Proof.
  intros Hd Hg; unfold delete_endpoint; rewrite Hg.
  destruct (distinct_without _ _ _ Hd) as [_ Hx].
  rewrite entries_remove_at; [reflexivity |].
  intros z Hz; apply Hx, in_or_app; now left.
Qed.

(** When all entries that match [e] are equal to each other, the first
    match is the only one. *)
Lemma single_match (e : Endpoint) (x : Endpoint * Z)
    (l1 l2 : list (Endpoint * Z)) :
  distinct_endpoints (l1 ++ x :: l2) ->
  (forall a b, endpoint_eq e a = true -> endpoint_eq e b = true ->
               endpoint_eq a b = true) ->
  endpoint_eq e (fst x) = true ->
  (forall z, In z l1 -> endpoint_eq e (fst z) = false) ->
  others e (l1 ++ x :: l2) = l1 ++ l2.
Proof.
  intros Hd Hu Hx H1; unfold others.
  destruct (distinct_without _ _ _ Hd) as [_ Hy].
  rewrite filter_app; simpl; rewrite Hx; simpl.
  rewrite !filter_all; [reflexivity | |].
  - intros z Hz; apply negb_true_iff.
    destruct (endpoint_eq e (fst z)) eqn:E; [| reflexivity].
    rewrite <- (Hy z (in_or_app _ _ _ (or_intror Hz))).
    rewrite endpoint_eq_sym; symmetry; now apply Hu.
  - intros z Hz; apply negb_true_iff; auto.
Qed.

Lemma delete_endpoint_single (e : Endpoint) (l : list (Endpoint * Z)) :
  distinct_endpoints l ->
  (forall a b, endpoint_eq e a = true -> endpoint_eq e b = true ->
               endpoint_eq a b = true) ->
  delete_endpoint e l = (Ok tt, others e l).
Proof.
  intros Hd Hu; destruct (get_endpoint e l) as [x |] eqn:Hg.
  - destruct (get_endpoint_some _ _ _ Hg) as (l1 & l2 & -> & Hx & H1).
    rewrite (delete_endpoint_first _ _ _ _ Hd Hg).
    now rewrite (single_match e x l1 l2 Hd Hu Hx H1).
  - unfold delete_endpoint; rewrite Hg; unfold others.
    rewrite filter_all; [reflexivity |].
    intros z Hz; apply negb_true_iff.
    exact (proj1 (get_endpoint_none e l) Hg z Hz).
Qed.

Lemma update_endpoint_single (e : Endpoint) (t : Z)
    (l : list (Endpoint * Z)) :
  distinct_endpoints l ->
  (forall a b, endpoint_eq e a = true -> endpoint_eq e b = true ->
               endpoint_eq a b = true) ->
  update_endpoint e t l = (Ok tt, others e l ++ [(e, t)]).
Proof.
  intros Hd Hu; unfold update_endpoint.
  rewrite (delete_endpoint_single e l Hd Hu).
  destruct (get_endpoint e l) as [x |] eqn:Hg.
  - apply add_endpoint_absent, get_endpoint_others.
  - rewrite (add_endpoint_absent _ _ _ Hg); unfold others.
    rewrite filter_all; [reflexivity |].
    intros z Hz; apply negb_true_iff.
    exact (proj1 (get_endpoint_none e l) Hg z Hz).
Qed.

Lemma others_distinct (e : Endpoint) (l : list (Endpoint * Z)) :
  distinct_endpoints l -> distinct_endpoints (others e l).
Proof.
  unfold others; induction l as [| a l IH]; simpl; intros H; [assumption |].
  apply distinct_cons in H; destruct H as [Ha Hl].
  destruct (negb (endpoint_eq e (fst a))); [| auto].
  apply distinct_cons; split; [| auto].
  intros b Hb; apply filter_In in Hb; apply Ha, Hb.
Qed.

Lemma run_endpoint_op_distinct (o : endpoint_op) (l : list (Endpoint * Z)) :
  distinct_endpoints l ->
  exists l', run_endpoint_op o l = (Ok tt, l') /\ distinct_endpoints l'.
Proof.
  intros Hd.
  assert (Hadd : forall e t l0, distinct_endpoints l0 ->
            exists l', add_endpoint e t l0 = (Ok tt, l')
                       /\ distinct_endpoints l').
  { intros e t l0 H0; unfold add_endpoint.
    destruct (get_endpoint e l0) eqn:Hg; eexists; split; try reflexivity;
      [assumption |].
    apply distinct_with_last; [assumption |].
    now apply get_endpoint_none. }
  assert (Hdel : forall e, exists l', delete_endpoint e l = (Ok tt, l')
                                      /\ distinct_endpoints l').
  { intros e; destruct (get_endpoint e l) as [x |] eqn:Hg.
    - destruct (get_endpoint_some _ _ _ Hg) as (l1 & l2 & E & _).
      subst l; rewrite (delete_endpoint_first _ _ _ _ Hd Hg).
      eexists; split; [reflexivity |].
      exact (proj1 (distinct_without _ _ _ Hd)).
    - unfold delete_endpoint; rewrite Hg; eauto. }
  destruct o as [e t | e | e t]; simpl.
  - now apply Hadd.
  - apply Hdel.
  - unfold update_endpoint; destruct (get_endpoint e l); [| now apply Hadd].
    destruct (Hdel e) as (l' & -> & Hd'); now apply Hadd.
Qed.

(** X1. Started on a list of pairwise different endpoints, the empty
    list of a new Interface among them, any run of [add_endpoint],
    [delete_endpoint] and [update_endpoint] calls raises nothing and
    leaves a list of pairwise different endpoints: at most one entry for
    an endpoint. *)
Theorem endpoints_stay_distinct (ops : list endpoint_op)
    (l : list (Endpoint * Z)) :
  distinct_endpoints l ->
  exists l', run_endpoint_ops ops l = (Ok tt, l') /\ distinct_endpoints l'.
Proof.
  revert l; induction ops as [| o ops IH]; intros l Hd; simpl; [eauto |].
  destruct (run_endpoint_op_distinct o l Hd) as (l1 & -> & Hd1).
  now apply IH.
Qed.

Lemma endpoints_stay_distinct_witness :
  distinct_endpoints []
  /\ exists l',
       run_endpoint_ops
         [Add (EAddr "00:11:22:33:44:55") 1;
          Add (EIface (port2 sw_down None None)) 2;
          Update (EAddr "00:11:22:33:44:55") 3;
          Delete (EAddr "aa:bb:cc:dd:ee:ff")] []
       = (Ok tt, l')
       /\ distinct_endpoints l'.
Proof.
  split; [apply distinct_nil |].
  exact (endpoints_stay_distinct _ [] distinct_nil).
Defined.

(** X2. [add_endpoint] never changes the time of an endpoint that is
    already there: after it, [get_endpoint] gives the entry that was
    found before, or the new pair when none was, and adding the same
    endpoint again at any time changes nothing. *)
Theorem add_endpoint_keeps_first_time (e : Endpoint) (t : Z)
    (l : list (Endpoint * Z)) :
  get_endpoint e (snd (add_endpoint e t l))
  = Some (match get_endpoint e l with
          | Some x => x
          | None => (e, t)
          end)
  /\ forall t', add_endpoint e t' (snd (add_endpoint e t l))
                = (Ok tt, snd (add_endpoint e t l)).
Proof.
  assert (H : get_endpoint e (snd (add_endpoint e t l))
              = Some (match get_endpoint e l with
                      | Some x => x
                      | None => (e, t)
                      end)).
  { unfold add_endpoint; destruct (get_endpoint e l) as [x |] eqn:Hg; simpl;
      [assumption | now apply get_endpoint_last]. }
  split; [exact H |].
  intros t'; unfold add_endpoint at 1; now rewrite H.
Qed.

(** X3. Deleting an endpoint right after adding it to a list that had no
    match for it gives the list back, whatever that list holds. *)
Theorem delete_undoes_add (e : Endpoint) (t : Z) (l : list (Endpoint * Z)) :
  get_endpoint e l = None ->
  delete_endpoint e (snd (add_endpoint e t l)) = (Ok tt, l).
Proof.
  intros Hg; rewrite (add_endpoint_absent _ _ _ Hg); simpl.
  unfold delete_endpoint; rewrite (get_endpoint_last _ t _ Hg).
  rewrite <- (app_nil_r l) at 2.
  rewrite entries_remove_at; [reflexivity |].
  intros z Hz; simpl; rewrite endpoint_eq_sym.
  exact (proj1 (get_endpoint_none e l) Hg z Hz).
Qed.

Lemma delete_undoes_add_witness :
  get_endpoint (EAddr "aa:bb:cc:dd:ee:ff")
    [(EAddr "00:11:22:33:44:55", 1)] = None
  /\ delete_endpoint (EAddr "aa:bb:cc:dd:ee:ff")
       (snd (add_endpoint (EAddr "aa:bb:cc:dd:ee:ff") 2
               [(EAddr "00:11:22:33:44:55", 1)]))
     = (Ok tt, [(EAddr "00:11:22:33:44:55", 1)]).
Proof.
  split; [reflexivity |].
  exact (delete_undoes_add (EAddr "aa:bb:cc:dd:ee:ff") 2
           [(EAddr "00:11:22:33:44:55", 1)] eq_refl).
Defined.

(** X4. On a list of pairwise different endpoints, [update_endpoint] of
    an Interface raises nothing and leaves the entries that do not match
    it, in their order, followed by the Interface with the new time;
    [get_endpoint] then gives that pair. *)
Theorem update_endpoint_refreshes_interface (i : Interface) (t : Z)
    (l : list (Endpoint * Z)) :
  distinct_endpoints l ->
  update_endpoint (EIface i) t l
  = (Ok tt, others (EIface i) l ++ [(EIface i, t)])
  /\ get_endpoint (EIface i) (snd (update_endpoint (EIface i) t l))
     = Some (EIface i, t).
Proof.
  intros Hd.
  rewrite (update_endpoint_single _ t l Hd (iface_matches_agree i)).
  split; [reflexivity |].
  apply get_endpoint_last, get_endpoint_others.
Qed.

Lemma update_endpoint_refreshes_interface_witness :
  distinct_endpoints [(EAddr "aa:bb:cc:dd:ee:ff", 1)]
  /\ update_endpoint (EIface (port2 sw_down None None)) 5
       [(EAddr "aa:bb:cc:dd:ee:ff", 1)]
     = (Ok tt,
        others (EIface (port2 sw_down None None))
          [(EAddr "aa:bb:cc:dd:ee:ff", 1)]
        ++ [(EIface (port2 sw_down None None), 5)]).
Proof.
  assert (Hd : distinct_endpoints [(EAddr "aa:bb:cc:dd:ee:ff", 1)])
    by (apply distinct_cons; split; [intros b [] | apply distinct_nil]).
  split; [exact Hd |].
  exact (proj1 (update_endpoint_refreshes_interface _ 5 _ Hd)).
Defined.

(** X5. On a list of pairwise different endpoints, [delete_endpoint] of
    an Interface raises nothing, takes out what matches it and nothing
    else, and leaves no match behind. *)
Theorem delete_endpoint_clears_interface (i : Interface)
    (l : list (Endpoint * Z)) :
  distinct_endpoints l ->
  delete_endpoint (EIface i) l = (Ok tt, others (EIface i) l)
  /\ get_endpoint (EIface i) (snd (delete_endpoint (EIface i) l)) = None.
Proof.
  intros Hd.
  rewrite (delete_endpoint_single _ l Hd (iface_matches_agree i)).
  split; [reflexivity | apply get_endpoint_others].
Qed.

Lemma delete_endpoint_clears_interface_witness :
  distinct_endpoints [(EAddr "00:11:22:33:44:55", 1)]
  /\ get_endpoint (EIface (port2 sw_down None None))
       (snd (delete_endpoint (EIface (port2 sw_down None None))
               [(EAddr "00:11:22:33:44:55", 1)]))
     = None.
Proof.
  assert (Hd : distinct_endpoints [(EAddr "00:11:22:33:44:55", 1)])
    by (apply distinct_cons; split; [intros b [] | apply distinct_nil]).
  split; [exact Hd |].
  exact (proj2 (delete_endpoint_clears_interface _ _ Hd)).
Defined.

(** X6. An address can match two Interfaces that are not equal.  When two
    such Interfaces were added, [update_endpoint] of their address drops
    the first, adds nothing and leaves the second with its old time, and
    [delete_endpoint] of the address leaves the second, which the address
    still finds. *)
Theorem address_endpoint_meets_two_interfaces (i1 i2 : Interface)
    (a : string) (t1 t2 t3 : Z) :
  address i1 = Some a -> address i2 = Some a ->
  Interface_eq i1 (OInterface i2) = false ->
  run_endpoint_ops
    [Add (EIface i1) t1; Add (EIface i2) t2; Update (EAddr a) t3] []
  = (Ok tt, [(EIface i2, t2)])
  /\ run_endpoint_ops
       [Add (EIface i1) t1; Add (EIface i2) t2; Delete (EAddr a)] []
     = (Ok tt, [(EIface i2, t2)])
  /\ get_endpoint (EAddr a) [(EIface i2, t2)] = Some (EIface i2, t2).
Proof.
  intros H1 H2 Hne.
  assert (E21 : endpoint_eq (EIface i2) (EIface i1) = false)
    by (rewrite endpoint_eq_sym; exact Hne).
  assert (A1 : endpoint_eq (EAddr a) (EIface i1) = true)
    by now apply Interface_eq_str_iff.
  assert (A2 : endpoint_eq (EAddr a) (EIface i2) = true)
    by now apply Interface_eq_str_iff.
  assert (R1 : entry_eq (EIface i1, t1) (EIface i1, t1) = true)
    by (unfold entry_eq; simpl fst; simpl snd;
        now rewrite endpoint_eq_refl, Z.eqb_refl).
  assert (Hdel : delete_endpoint (EAddr a) [(EIface i1, t1); (EIface i2, t2)]
                 = (Ok tt, [(EIface i2, t2)])).
  { unfold delete_endpoint, get_endpoint; cbn [find fst].
    rewrite A1; cbn [entries_remove]; now rewrite R1. }
  assert (Hrun : forall o,
             run_endpoint_ops
               [Add (EIface i1) t1; Add (EIface i2) t2; o] []
             = run_endpoint_ops [o] [(EIface i1, t1); (EIface i2, t2)]).
  { intros o; cbn [run_endpoint_ops run_endpoint_op].
    unfold add_endpoint at 1, get_endpoint; cbn [find app].
    unfold add_endpoint at 1, get_endpoint; cbn [find fst app].
    now rewrite E21. }
  split; [| split].
  - rewrite Hrun; cbn [run_endpoint_ops run_endpoint_op].
    unfold update_endpoint; rewrite Hdel.
    unfold get_endpoint at 1; cbn [find fst]; rewrite A1.
    unfold add_endpoint, get_endpoint; cbn [find fst]; now rewrite A2.
  - rewrite Hrun; cbn [run_endpoint_ops run_endpoint_op]; now rewrite Hdel.
  - unfold get_endpoint; cbn [find fst]; now rewrite A2.
Qed.

Lemma address_endpoint_meets_two_interfaces_witness :
  run_endpoint_ops
    [Add (EIface (port2 sw_down None None)) 1;
     Add (EIface (Interface_init "eth1" 3 sw_down
                    (Some "00:11:22:33:44:55") None None None)) 2;
     Update (EAddr "00:11:22:33:44:55") 3] []
  = (Ok tt,
     [(EIface (Interface_init "eth1" 3 sw_down
                 (Some "00:11:22:33:44:55") None None None), 2)]).
Proof.
  refine (proj1 (address_endpoint_meets_two_interfaces
                   (port2 sw_down None None)
                   (Interface_init "eth1" 3 sw_down
                      (Some "00:11:22:33:44:55") None None None)
                   "00:11:22:33:44:55" 1 2 3 _ _ _));
    vm_compute; reflexivity.
Defined.

(** ** More of the tag pool *)

Lemma pops_pool (k : nat) (self : Interface) :
  available_tags (run_ops (repeat Next k) self)
  = firstn (List.length (available_tags self) - k) (available_tags self).
Proof.
  revert self; induction k as [| k IH]; intros self.
  - cbn [repeat run_ops fold_left]; now rewrite Nat.sub_0_r, firstn_all.
  - change (run_ops (repeat Next (S k)) self)
      with (run_ops (repeat Next k) (run_op Next self)).
    rewrite IH; cbn [run_op]; rewrite get_next_pool.
    rewrite removelast_firstn_len, firstn_firstn, length_firstn.
    f_equal; lia.
Qed.

Lemma seq_firstn (n s len : nat) :
  firstn n (seq s len) = seq s (Nat.min n len).
Proof.
  revert s len; induction n as [| n IH]; intros s [| len]; try reflexivity.
  cbn [Nat.min seq firstn]; now rewrite IH.
Qed.

Lemma range_firstn (lo hi : Z) (n : nat) :
  (n <= Z.to_nat (hi - lo))%nat ->
  firstn n (range lo hi) = range lo (lo + Z.of_nat n).
Proof.
  intros H; unfold range; rewrite firstn_map, seq_firstn.
  do 2 f_equal; lia.
Qed.

Lemma range_snoc (lo hi : Z) :
  lo <= hi -> range lo (hi + 1) = range lo hi ++ [hi].
Proof.
  intros H; unfold range.
  replace (Z.to_nat (hi + 1 - lo)) with (S (Z.to_nat (hi - lo))) by lia.
  rewrite seq_S, map_app; cbn [map]; do 2 f_equal; lia.
Qed.

Lemma seeded_pool_after_pops (k : nat) (name : string) (port : Z)
    (sw : Switch.t) (addr : option string) (st fts : option Z)
    (spd : option num) :
  (k <= 4095)%nat ->
  available_tags
    (run_ops (repeat Next k) (Interface_init name port sw addr st fts spd))
  = map (mkTAG VLAN) (range 1 (4096 - Z.of_nat k)).
Proof.
  intros Hk; rewrite pops_pool, init_pool, length_map, range_length.
  rewrite firstn_map, range_firstn by lia.
  do 2 f_equal; lia.
Qed.

(** X7. From a freshly constructed Interface the tags are handed out from
    4095 downwards: after k calls of [get_next_available_tag], k below
    4095, the pool holds the VLAN tags 1 to 4095 - k and the next call
    returns the tag 4095 - k; after 4095 or more calls the pool is empty
    and the next call returns False. *)
Theorem allocation_runs_downwards (k : nat) (name : string) (port : Z)
    (sw : Switch.t) (addr : option string) (st fts : option Z)
    (spd : option num) :
  ((k < 4095)%nat ->
   available_tags
     (run_ops (repeat Next k) (Interface_init name port sw addr st fts spd))
   = map (mkTAG VLAN) (range 1 (4096 - Z.of_nat k))
   /\ fst (get_next_available_tag
             (run_ops (repeat Next k)
                (Interface_init name port sw addr st fts spd)))
      = Ok (VTag (mkTAG VLAN (4095 - Z.of_nat k))))
  /\ ((4095 <= k)%nat ->
      available_tags
        (run_ops (repeat Next k)
           (Interface_init name port sw addr st fts spd)) = []
      /\ fst (get_next_available_tag
                (run_ops (repeat Next k)
                   (Interface_init name port sw addr st fts spd)))
         = Ok (VBool false)).
Proof.
  split; intros Hk.
  - assert (H := seeded_pool_after_pops k name port sw addr st fts spd
                   ltac:(lia)).
    split; [exact H |].
    replace (4096 - Z.of_nat k) with (4095 - Z.of_nat k + 1) in H by lia.
    rewrite range_snoc, map_app in H by lia.
    now rewrite (get_next_returns_last _ _ _ H).
  - assert (H : available_tags
                  (run_ops (repeat Next k)
                     (Interface_init name port sw addr st fts spd)) = []).
    { rewrite pops_pool, init_pool, length_map, range_length.
      replace (Z.to_nat (4096 - 1) - k)%nat with 0%nat by lia.
      reflexivity. }
    split; [exact H |].
    unfold get_next_available_tag; now rewrite H.
Qed.

Lemma use_tag_absent (tag : TAG) (self : Interface) :
  is_tag_available tag self = false -> use_tag tag self = (Ok false, self).
Proof.
  unfold is_tag_available; intros H; unfold use_tag.
  now rewrite find_equal_tag, H.
Qed.

Lemma not_available (tag : TAG) (self : Interface) :
  ~ In tag (available_tags self) -> is_tag_available tag self = false.
Proof.
  intros H; unfold is_tag_available.
  destruct (list_contains tag (available_tags self)) eqn:E; [| reflexivity].
  now apply list_contains_true_iff in E.
Qed.

(** X8. In a pool without equal entries, a tag that was handed out is no
    longer available: after [get_next_available_tag] returned it, or
    [use_tag] of it returned True, [is_tag_available] is False for it and
    [use_tag] of it returns False and changes nothing. *)
Theorem allocated_tag_is_gone (self : Interface) :
  no_equal_entries (available_tags self) ->
  (forall tag self',
      get_next_available_tag self = (Ok (VTag tag), self') ->
      is_tag_available tag self' = false
      /\ use_tag tag self' = (Ok false, self'))
  /\ (forall tag self',
        use_tag tag self = (Ok true, self') ->
        is_tag_available tag self' = false
        /\ use_tag tag self' = (Ok false, self')).
Proof.
  intros Hd; apply no_equal_entries_NoDup in Hd.
  assert (Hgone : forall tag self',
             ~ In tag (available_tags self') ->
             is_tag_available tag self' = false
             /\ use_tag tag self' = (Ok false, self')).
  { intros tag self' H; split; [now apply not_available |].
    now apply use_tag_absent, not_available. }
  split; intros tag self' H; apply Hgone.
  - unfold get_next_available_tag in H.
    destruct (list_pop (available_tags self)) as [[t r] |] eqn:E;
      [| discriminate H].
    injection H as <- <-; apply list_pop_some in E.
    rewrite E in Hd; cbn [set_available_tags available_tags].
    apply NoDup_remove_2 with (l' := []) in Hd.
    now rewrite app_nil_r in Hd.
  - unfold use_tag in H; rewrite find_equal_tag in H.
    destruct (list_contains tag (available_tags self)) eqn:E;
      [| discriminate H].
    destruct (list_remove tag (available_tags self)) as [r |] eqn:Er;
      [| discriminate H].
    injection H as <-; cbn [set_available_tags available_tags].
    destruct (list_remove_split _ _ _ Er) as (l1 & e & l2 & Hl & -> & He & _).
    apply TAG_eq_true_iff in He; subst e.
    rewrite Hl in Hd; now apply NoDup_remove_2 in Hd.
Qed.

Lemma allocated_tag_is_gone_witness :
  no_equal_entries (available_tags (port2 sw_down None None))
  /\ is_tag_available (mkTAG VLAN 4095)
       (snd (get_next_available_tag (port2 sw_down None None))) = false
  /\ is_tag_available (mkTAG VLAN 7)
       (snd (use_tag (mkTAG VLAN 7) (port2 sw_down None None))) = false.
Proof.
  assert (Hd : no_equal_entries (available_tags (port2 sw_down None None))).
  { unfold port2; rewrite init_pool.
    apply no_equal_entries_NoDup, seeded_pool_NoDup. }
  split; [exact Hd | split].
  - refine (proj1 (proj1 (allocated_tag_is_gone _ Hd) _ _ _)).
    vm_compute; reflexivity.
  - refine (proj1 (proj2 (allocated_tag_is_gone _ Hd) _ _ _)).
    vm_compute; reflexivity.
Defined.

(** X9. In a pool without equal entries, reserving an available tag with
    [use_tag] and releasing it with [make_tag_available] gives back a
    pool with the same tags, as many as before, in which the released
    tag is now the last entry, so that it is the next one
    [get_next_available_tag] returns. *)
Theorem release_after_use_moves_tag_last (tag : TAG) (self : Interface) :
  no_equal_entries (available_tags self) ->
  is_tag_available tag self = true ->
  exists l1 l2,
    available_tags self = l1 ++ tag :: l2
    /\ available_tags
         (snd (make_tag_available tag (snd (use_tag tag self))))
       = l1 ++ l2 ++ [tag]
    /\ Permutation (available_tags self)
         (available_tags
            (snd (make_tag_available tag (snd (use_tag tag self)))))
    /\ fst (get_next_available_tag
              (snd (make_tag_available tag (snd (use_tag tag self)))))
       = Ok (VTag tag).
Proof.
  intros Hd Ha; apply no_equal_entries_NoDup in Hd.
  destruct (list_remove_present _ _ Ha) as [r Hr].
  destruct (list_remove_split _ _ _ Hr) as (l1 & e & l2 & Hl & -> & He & _).
  apply TAG_eq_true_iff in He; subst e.
  assert (Hp : available_tags
                 (snd (make_tag_available tag (snd (use_tag tag self))))
               = l1 ++ l2 ++ [tag]).
  { rewrite make_tag_available_pool, use_tag_pool, Hr.
    rewrite Hl in Hd; apply NoDup_remove_2 in Hd.
    destruct (list_contains tag (l1 ++ l2)) eqn:E.
    - now apply list_contains_true_iff in E.
    - now rewrite app_assoc. }
  exists l1, l2; split; [assumption |]; split; [assumption |]; split.
  - rewrite Hp, Hl; apply Permutation_app_head.
    change (tag :: l2) with ([tag] ++ l2); apply Permutation_app_comm.
  - rewrite app_assoc in Hp; now rewrite (get_next_returns_last _ _ _ Hp).
Qed.

Lemma release_after_use_moves_tag_last_witness :
  fst (get_next_available_tag
         (snd (make_tag_available (mkTAG VLAN 7)
                 (snd (use_tag (mkTAG VLAN 7) (port2 sw_down None None))))))
  = Ok (VTag (mkTAG VLAN 7)).
Proof.
  assert (Hd : no_equal_entries (available_tags (port2 sw_down None None))).
  { unfold port2; rewrite init_pool.
    apply no_equal_entries_NoDup, seeded_pool_NoDup. }
  assert (Ha : is_tag_available (mkTAG VLAN 7) (port2 sw_down None None)
               = true) by (vm_compute; reflexivity).
  destruct (release_after_use_moves_tag_last _ _ Hd Ha)
    as (l1 & l2 & _ & _ & _ & H).
  exact H.
Defined.

Lemma outside_seed_not_available (tag : TAG) (name : string) (port : Z)
    (sw : Switch.t) (addr : option string) (st fts : option Z)
    (spd : option num) :
  tag_type tag <> VLAN \/ value tag < 1 \/ 4095 < value tag ->
  is_tag_available tag (Interface_init name port sw addr st fts spd) = false.
Proof.
  intros Hout; apply not_available; rewrite init_pool, in_map_iff.
  intros [v [<- Hv]]; apply range_In in Hv; cbn [tag_type value] in Hout.
  destruct Hout as [H | H]; [now apply H | lia].
Qed.

Lemma release_appends (tag : TAG) (self : Interface) :
  is_tag_available tag self = false ->
  make_tag_available tag self = (Ok VNone, append_tag self tag).
Proof. intros H; unfold make_tag_available; now rewrite H. Qed.

(** X10. [make_tag_available] does not look at what it is given: on a
    freshly constructed Interface any tag that is not a VLAN tag of value
    1 to 4095 is accepted, the call returns None, the pool grows to 4096
    entries and the tag is what [get_next_available_tag] returns next. *)
Theorem release_takes_any_tag (tag : TAG) (name : string) (port : Z)
    (sw : Switch.t) (addr : option string) (st fts : option Z)
    (spd : option num) :
  tag_type tag <> VLAN \/ value tag < 1 \/ 4095 < value tag ->
  fst (make_tag_available tag
         (Interface_init name port sw addr st fts spd)) = Ok VNone
  /\ List.length
       (available_tags
          (snd (make_tag_available tag
                  (Interface_init name port sw addr st fts spd))))
     = 4096%nat
  /\ is_tag_available tag
       (snd (make_tag_available tag
               (Interface_init name port sw addr st fts spd))) = true
  /\ fst (get_next_available_tag
            (snd (make_tag_available tag
                    (Interface_init name port sw addr st fts spd))))
     = Ok (VTag tag).
Proof.
  intros Hout.
  rewrite (release_appends _ _
             (outside_seed_not_available tag name port sw addr st fts spd
                Hout)).
  cbn [fst snd]; generalize (init_pool name port sw addr st fts spd).
  generalize (Interface_init name port sw addr st fts spd); intros self Hs.
  assert (Hp : available_tags (append_tag self tag)
               = available_tags self ++ [tag]) by reflexivity.
  split; [reflexivity |].
  split; [rewrite Hp, length_app, Hs, length_map, range_length; vm_compute;
          reflexivity |].
  split.
  - unfold is_tag_available; rewrite Hp; apply list_contains_true_iff.
    apply in_or_app; right; now left.
  - now rewrite (get_next_returns_last _ _ _ Hp).
Qed.

Lemma release_takes_any_tag_witness :
  fst (get_next_available_tag
         (snd (make_tag_available (mkTAG MPLS 16)
                 (port2 sw_down None None))))
  = Ok (VTag (mkTAG MPLS 16)).
Proof.
  refine (proj2 (proj2 (proj2
            (release_takes_any_tag (mkTAG MPLS 16) _ _ _ _ _ _ _ _)))).
  left; discriminate.
Defined.

Lemma set_available_tags_same (self : Interface) :
  set_available_tags self (available_tags self) = self.
Proof. now destruct self. Qed.

Lemma run_op_frame (o : pool_op) (self : Interface) :
  run_op o self = set_available_tags self (available_tags (run_op o self)).
Proof.
  destruct o as [tag | | tag]; cbn [run_op].
  - unfold use_tag.
    destruct (find _ (available_tags self)); cbn [snd];
      [| now rewrite set_available_tags_same].
    destruct (list_remove _ (available_tags self)); cbn [snd];
      [reflexivity | now rewrite set_available_tags_same].
  - unfold get_next_available_tag.
    destruct (list_pop (available_tags self)) as [[t r] |]; cbn [snd];
      [reflexivity | now rewrite set_available_tags_same].
  - unfold make_tag_available.
    destruct (negb (is_tag_available tag self)); cbn [snd];
      [reflexivity | now rewrite set_available_tags_same].
Qed.

Lemma run_ops_frame (ops : list pool_op) (self : Interface) :
  run_ops ops self
  = set_available_tags self (available_tags (run_ops ops self)).
Proof.
  revert self; induction ops as [| o ops IH]; intros self.
  - cbn [run_ops fold_left]; now rewrite set_available_tags_same.
  - change (run_ops (o :: ops) self) with (run_ops ops (run_op o self)).
    rewrite IH at 1; now rewrite (run_op_frame o self) at 1.
Qed.

Section PoolFrame.
Context {pfts01 : PortFeatures01.t} {pfts04 : PortFeatures04.t}.

(** X11. The pool methods change the pool and nothing else: after any run
    of them the Interface is the one before with another pool, so its
    speed with the log, its id, and what it equals or is equalled by are
    what they were. *)
Theorem pool_ops_touch_only_the_pool (ops : list pool_op)
    (self : Interface) :
  run_ops ops self
  = set_available_tags self (available_tags (run_ops ops self))
  /\ speed (run_ops ops self) = speed self
  /\ get_hr_speed (run_ops ops self) = get_hr_speed self
  /\ Interface_id (run_ops ops self) = Interface_id self
  /\ (forall o, Interface_eq (run_ops ops self) o = Interface_eq self o)
  /\ (forall other,
        Interface_eq other (OInterface (run_ops ops self))
        = Interface_eq other (OInterface self)).
Proof.
  split; [apply run_ops_frame |].
  rewrite (run_ops_frame ops self).
  generalize (available_tags (run_ops ops self)); intros pool.
  repeat split; intros []; reflexivity.
Qed.

End PoolFrame.

(** ** More of the identity *)

(** X12. Among Interfaces [__eq__] is an equivalence: every Interface
    equals itself, equality does not depend on the side, and two
    Interfaces equal to a third equal each other.  Equal Interfaces equal
    the same address strings. *)
Theorem Interface_eq_is_an_equivalence :
  (forall i, Interface_eq i (OInterface i) = true)
  /\ (forall i j,
        Interface_eq i (OInterface j) = Interface_eq j (OInterface i))
  /\ (forall i j k,
        Interface_eq i (OInterface j) = true ->
        Interface_eq j (OInterface k) = true ->
        Interface_eq i (OInterface k) = true)
  /\ (forall i j s,
        Interface_eq i (OInterface j) = true ->
        Interface_eq i (OStr s) = Interface_eq j (OStr s)).
Proof.
  split; [| split; [| split]].
  - intros i; exact (endpoint_eq_refl (EIface i)).
  - intros i j; exact (endpoint_eq_sym (EIface i) (EIface j)).
  - intros i j k; rewrite !Interface_eq_iff.
    intros (H1 & H2 & H3 & H4) (K1 & K2 & K3 & K4); repeat split; congruence.
  - intros i j s H; apply Interface_eq_iff in H.
    destruct H as (_ & _ & Ha & _); cbn [Interface_eq]; now rewrite Ha.
Qed.

Lemma has_char_append (c : ascii) (s1 s2 : string) :
  has_char c (s1 ++ String c s2)%string.
Proof.
  unfold has_char; induction s1 as [| a s1 IH]; simpl; auto.
Qed.

Lemma uint_no_colon (d : Decimal.uint) :
  ~ has_char ":" (NilEmpty.string_of_uint d).
Proof.
  unfold has_char; induction d; simpl; intros H;
    try (destruct H as [H | H]; [discriminate H | auto]); auto.
Qed.

Lemma str_of_int_no_colon (n : Z) : ~ has_char ":" (str_of_int n).
Proof.
  assert (H : forall d, ~ has_char ":" (NilZero.string_of_uint d)).
  { intros d; destruct d; try apply (uint_no_colon _).
    unfold has_char; simpl; intros [H | []]; discriminate H. }
  unfold str_of_int; destruct (Z.to_int n) as [d | d]; simpl; [apply H |].
  unfold has_char; simpl; intros [E | E]; [discriminate E | exact (H d E)].
Qed.

Lemma str_of_int_inj (a b : Z) : str_of_int a = str_of_int b -> a = b.
Proof.
  assert (H : forall n, NilZero.int_of_string (str_of_int n)
                        = Some (Z.to_int n)).
  { intros n; apply NilZero.isi; destruct n; simpl; try discriminate;
      intros [= E]; exact (DecimalPos.Unsigned.to_uint_nonnil _ E). }
  intros E; apply (f_equal NilZero.int_of_string) in E.
  rewrite !H in E; injection E as E.
  apply (f_equal Z.of_int) in E; now rewrite !DecimalZ.of_to in E.
Qed.

(** Two strings ending in a colon and a colon-free tail agree only when
    heads and tails do. *)
Lemma split_at_last_colon (s1 s2 d1 d2 : string) :
  ~ has_char ":" d1 -> ~ has_char ":" d2 ->
  (s1 ++ ":" ++ d1 = s2 ++ ":" ++ d2)%string -> s1 = s2 /\ d1 = d2.
Proof.
  intros H1 H2; revert s2; induction s1 as [| a s1 IH]; intros [| b s2];
    simpl; intros E.
  - injection E as E; auto.
  - injection E as <- E; exfalso; apply H1; rewrite E.
    apply has_char_append.
  - injection E as -> E; exfalso; apply H2; rewrite <- E.
    apply has_char_append.
  - injection E as <- E; destruct (IH s2 E) as [-> ->]; auto.
Qed.

(** X13. The id of an Interface names its switch and its port and
    nothing else: two Interfaces have the same id exactly when their
    switches have the same dpid and their port numbers are the same. *)
Theorem Interface_id_names_switch_and_port (self other : Interface) :
  Interface_id self = Interface_id other
  <-> Switch.dpid (switch self) = Switch.dpid (switch other)
      /\ port_number self = port_number other.
Proof.
  unfold Interface_id; split.
  - intros E.
    destruct (split_at_last_colon _ _ _ _ (str_of_int_no_colon _)
                (str_of_int_no_colon _) E) as [Hd Hp].
    split; [assumption | now apply str_of_int_inj].
  - now intros [-> ->].
Qed.

(** ** More of the speed *)

Lemma snd_bind {A B} (m : Py A) (k : A -> Py B) :
  snd (bind m k)
  = match fst m with
    | Ok a => snd m ++ snd (k a)
    | Raise _ => snd m
    end.
Proof.
  destruct m as [[a | e] l]; simpl; [| reflexivity].
  now destruct (k a).
Qed.

Lemma quiet_bind {A B} (m : Py A) (k : A -> Py B) :
  (forall a, quiet (k a)) -> snd (bind m k) = snd m.
Proof.
  intros H; rewrite snd_bind; destruct (fst m); [| reflexivity].
  rewrite (H a); apply app_nil_r.
Qed.

Lemma quiet_lift_bind {A B} (r : result A) (k : A -> Py B) :
  (forall a, quiet (k a)) -> quiet (bind (lift r) k).
Proof. intros H; unfold quiet; now rewrite quiet_bind. Qed.

Section MoreSpeed.
Context {pfts01 : PortFeatures01.t} {pfts04 : PortFeatures04.t}.

Lemma tier_a_result (self : Interface) :
  _get_v0x01_v0x04_speed self
  = ret (match features self with
         | Some fts => tier_a_choice fts
         | None => None
         end).
Proof.
  unfold _get_v0x01_v0x04_speed, tier_a_choice.
  destruct (features self) as [fts |]; [| reflexivity].
  rewrite !has_feature_Some, speed_of_10G, speed_of_1G, speed_of_100M,
    speed_of_10M.
  repeat match goal with
         | |- context [if negb ?c then _ else _] => destruct (negb c)
         end; reflexivity.
Qed.

Lemma tier_b_result (self : Interface) :
  _get_v0x04_speed self
  = ret (match features self with
         | Some fts => tier_b_choice fts
         | None => None
         end).
Proof.
  destruct (features self) as [fts |] eqn:E; [now apply tier_b_chosen |].
  unfold _get_v0x04_speed; now rewrite E.
Qed.

Lemma tier_a_choice_none (fts : Z) :
  tier_a_choice fts = None <-> Z.land fts tier_a_mask = 0.
Proof.
  unfold tier_a_choice, tier_a_mask; rewrite !land_lor_0.
  repeat match goal with
         | |- context [negb (?x =? 0)] =>
             destruct (Z.eqb_spec x 0); cbn [negb]
         end;
    repeat match goal with
           | H : Z.land _ (Z.lor _ _) = 0 |- _ => apply land_lor_0 in H
           | H : Z.land _ (Z.lor _ _) <> 0 |- _ => rewrite land_lor_0 in H
           end;
    split; intros H; try discriminate H; try tauto.
Qed.

Lemma tier_b_choice_none (fts : Z) :
  tier_b_choice fts = None <-> Z.land fts tier_b_mask = 0.
Proof.
  unfold tier_b_choice, tier_b_mask; rewrite !land_lor_0.
  repeat match goal with
         | |- context [negb (?x =? 0)] =>
             destruct (Z.eqb_spec x 0); cbn [negb]
         end; split; intros H; try discriminate H; try tauto.
Qed.

Lemma tier_a_choice_in (fts : Z) (v : num) :
  tier_a_choice fts = Some v -> In v tier_a_speeds.
Proof.
  unfold tier_a_choice, tier_a_speeds.
  repeat match goal with
         | |- context [if negb ?c then _ else _] => destruct (negb c)
         end; intros [= <-]; cbn [In]; tauto.
Qed.

Lemma get_of_features_speed_value (self : Interface) :
  fst (get_of_features_speed self)
  = Ok (match features self with
        | None => None
        | Some fts =>
            match tier_a_choice fts with
            | Some v => Some v
            | None => if _is_v0x04 self then tier_b_choice fts else None
            end
        end).
Proof.
  unfold get_of_features_speed; rewrite tier_a_result, tier_b_result.
  destruct (features self) as [fts |]; [| now destruct (_is_v0x04 self)].
  destruct (tier_a_choice fts) as [v |]; [reflexivity |].
  destruct (_is_v0x04 self); [| reflexivity].
  now destruct (tier_b_choice fts).
Qed.

Lemma speed_outcomes (self : Interface) :
  (exists v, speed self = (Ok (Some v), []))
  \/ speed self = (Ok None, [unknown_speed_warning self]).
Proof.
  unfold speed; destruct (_custom_speed self) as [c |];
    [left; eexists; reflexivity |].
  destruct (get_of_features_speed_cases self) as [[w [_ E]] | E];
    [left; eauto | now right].
Qed.

(** X14. [speed] never raises.  It either returns a speed and logs
    nothing, or returns None and logs one warning with the port number,
    the shortened switch id and the features.  It returns None exactly
    when no custom speed is set and the features, if any, set no bit of
    the common table and, if the switch is connected with version 0x04,
    none of the 40 Gbps, 100 Gbps and 1 Tbps bits either. *)
Theorem unknown_speed_is_logged (self : Interface) :
  ((exists v, speed self = (Ok (Some v), []))
   \/ speed self = (Ok None, [unknown_speed_warning self]))
  /\ (fst (speed self) = Ok None
      <-> _custom_speed self = None
          /\ forall fts,
               features self = Some fts ->
               Z.land fts tier_a_mask = 0
               /\ (_is_v0x04 self = true -> Z.land fts tier_b_mask = 0)).
Proof.
  split; [apply speed_outcomes |].
  unfold speed; destruct (_custom_speed self) as [c |].
    + split; [discriminate | intros [H _]; discriminate H].
    + rewrite get_of_features_speed_value.
      destruct (features self) as [fts |];
        [| split; [intros _; split; [reflexivity | discriminate]
                  | reflexivity]].
      destruct (tier_a_choice fts) as [v |] eqn:Ea.
      * split; [discriminate |].
        intros [_ H]; destruct (H fts eq_refl) as [H' _].
        apply tier_a_choice_none in H'; congruence.
      * apply tier_a_choice_none in Ea.
        destruct (_is_v0x04 self).
        -- split.
           ++ intros [= E]; apply tier_b_choice_none in E.
              split; [reflexivity |]; intros f [= <-]; auto.
           ++ intros [_ H]; destruct (H fts eq_refl) as [_ H'].
              apply tier_b_choice_none in H'; [now rewrite H' | reflexivity].
        -- split; [| reflexivity].
           intros _; split; [reflexivity |].
           intros f [= <-]; split; [assumption | discriminate].
Qed.

(** X15. A feature bitmask with a bit of the common table gives its speed
    on any switch, connected or not and whatever its version: the speed
    of the first of the 10 Gbps, 1 Gbps, 100 Mbps and 10 Mbps bits that
    is set, with nothing logged. *)
Theorem common_speed_ignores_the_switch (self : Interface) (fts : Z) :
  _custom_speed self = None -> features self = Some fts ->
  Z.land fts tier_a_mask <> 0 ->
  exists v,
    tier_a_choice fts = Some v /\ In v tier_a_speeds
    /\ forall sw, speed (on_switch self sw) = (Ok (Some v), []).
Proof.
  intros Hc Hf Hz.
  destruct (tier_a_choice fts) as [v |] eqn:E;
    [| now apply tier_a_choice_none in E].
  exists v; split; [reflexivity |];
    split; [exact (tier_a_choice_in fts v E) |].
  intros sw; unfold speed; cbn [on_switch _custom_speed]; rewrite Hc.
  apply get_of_features_speed_tier_a.
  rewrite tier_a_result; cbn [on_switch features]; now rewrite Hf, E.
Qed.

Lemma get_hr_speed_log (self : Interface) :
  snd (get_hr_speed self) = snd (speed self).
Proof.
  unfold get_hr_speed; apply quiet_bind; intros [v |]; [| reflexivity].
  apply quiet_lift_bind; intros s.
  destruct (num_eq_int s (10 ^ 12)); [reflexivity |].
  destruct (num_ge_int s (10 ^ 9));
    apply quiet_lift_bind; intros q; apply quiet_lift_bind; intros n;
    reflexivity.
Qed.

(** X16. Without a custom speed, [get_hr_speed] raises nothing, logs what
    [speed] logs, and prints a known speed under the name of its tier:
    10 Gbps, 1 Gbps, 100 Mbps, 10 Mbps, 1 Tbps, 100 Gbps or 40 Gbps. *)
Theorem feature_speed_reads_as_its_tier (self : Interface) :
  _custom_speed self = None ->
  snd (get_hr_speed self) = snd (speed self)
  /\ (fst (speed self) = Ok None -> fst (get_hr_speed self) = Ok ""%string)
  /\ forall v,
       fst (speed self) = Ok (Some v) ->
       exists nm, In (v, nm) tier_names /\ fst (get_hr_speed self) = Ok nm.
Proof.
  intros Hc; split; [apply get_hr_speed_log |].
  split; [apply get_hr_speed_unknown |].
  intros v Hs.
  assert (Hin : In v (tier_a_speeds ++ tier_b_speeds)).
  { unfold speed in Hs; rewrite Hc in Hs.
    destruct (get_of_features_speed_cases self) as [[w [Hw E]] | E];
      rewrite E in Hs; [| discriminate Hs].
    injection Hs as <-; exact Hw. }
  apply in_app_or in Hin; unfold tier_a_speeds, tier_b_speeds in Hin.
  cbn [In] in Hin.
  repeat match goal with
         | H : _ \/ _ |- _ => destruct H as [H | H]
         | H : False |- _ => destruct H
         end; subst v;
    (erewrite get_hr_speed_of; [| exact Hs | vm_compute; reflexivity]);
    eexists; (split; [| vm_compute; reflexivity]);
    unfold tier_names; cbn [In]; tauto.
Qed.

(** X17. [get_custom_speed] gives back what [set_custom_speed] stored.
    Setting a custom speed leaves the pool, the identity and the speed
    the features give untouched, and setting None afterwards makes
    [speed] the speed of the features again. *)
Theorem custom_speed_can_be_reset (self : Interface) (v : option num) :
  get_custom_speed (snd (set_custom_speed v self)) = v
  /\ speed (snd (set_custom_speed None (snd (set_custom_speed v self))))
     = get_of_features_speed self
  /\ get_of_features_speed (snd (set_custom_speed v self))
     = get_of_features_speed self
  /\ available_tags (snd (set_custom_speed v self)) = available_tags self
  /\ forall o,
       Interface_eq (snd (set_custom_speed v self)) o = Interface_eq self o.
Proof.
  repeat split; intros []; reflexivity.
Qed.

End MoreSpeed.

Lemma common_speed_ignores_the_switch_witness :
  exists v,
    tier_a_choice (pfts01 := openflow10) 96 = Some v
    /\ In v tier_a_speeds
    /\ forall sw,
         speed (pfts01 := openflow10) (pfts04 := openflow13)
           (on_switch (port2 sw_down (Some 96) None) sw)
         = (Ok (Some v), []).
Proof.
  assert (Hc : _custom_speed (port2 sw_down (Some 96) None) = None)
    by (vm_compute; reflexivity).
  assert (Hf : features (port2 sw_down (Some 96) None) = Some 96)
    by (vm_compute; reflexivity).
  refine (@common_speed_ignores_the_switch openflow10 openflow13 _ 96
            Hc Hf _).
  vm_compute; discriminate.
Defined.

Lemma feature_speed_reads_as_its_tier_witness :
  fst (speed (pfts01 := openflow10) (pfts04 := openflow13)
         (port2 sw_v0x04 (Some 256) None))
  = Ok (Some (bytes_per_second (100 * 10 ^ 9)))
  /\ exists nm,
       In (bytes_per_second (100 * 10 ^ 9), nm) tier_names
       /\ fst (get_hr_speed (pfts01 := openflow10) (pfts04 := openflow13)
                 (port2 sw_v0x04 (Some 256) None)) = Ok nm.
Proof.
  assert (Hc : _custom_speed (port2 sw_v0x04 (Some 256) None) = None)
    by (vm_compute; reflexivity).
  assert (Hs : fst (speed (pfts01 := openflow10) (pfts04 := openflow13)
                      (port2 sw_v0x04 (Some 256) None))
               = Ok (Some (bytes_per_second (100 * 10 ^ 9))))
    by (vm_compute; reflexivity).
  split; [exact Hs |].
  exact (proj2 (proj2 (@feature_speed_reads_as_its_tier openflow10
                         openflow13 _ Hc)) _ Hs).
Defined.

(** ** The switch id in the warning *)

Lemma length_append (a b : string) :
  String.length (a ++ b)%string = (String.length a + String.length b)%nat.
Proof. induction a as [| c a IH]; simpl; [reflexivity | now rewrite IH]. Qed.

Lemma length_substring (n m : nat) (s : string) :
  (n + m <= String.length s)%nat -> String.length (substring n m s) = m.
Proof.
  revert n m; induction s as [| c s IH]; intros [| n] [| m]; simpl; intros H;
    try reflexivity; try lia.
  - rewrite IH; [reflexivity | lia].
  - apply IH; lia.
  - apply IH; simpl; lia.
Qed.

Lemma substring_whole (s : string) : substring 0 (String.length s) s = s.
Proof. induction s as [| c s IH]; simpl; [reflexivity | now rewrite IH]. Qed.

Lemma substring_head (a b : string) :
  substring 0 (String.length a) (a ++ b)%string = a.
Proof.
  induction a as [| c a IH]; simpl; [now destruct b | now rewrite IH].
Qed.

Lemma substring_tail (a b : string) (n m : nat) :
  substring (String.length a + n) m (a ++ b)%string = substring n m b.
Proof. induction a as [| c a IH]; simpl; [reflexivity | exact IH]. Qed.

(** X18. The switch id that the warning of an unknown speed carries is
    never longer than 20 characters.  An id of up to 20 characters is
    logged as it is; a longer one is logged as nine characters: its first
    three, three dots and its last three. *)
Theorem short_switch_id_is_short (sid : string) :
  (String.length (short_switch_id sid) <= 20)%nat
  /\ ((String.length sid <= 20)%nat -> short_switch_id sid = sid)
  /\ ((20 < String.length sid)%nat ->
      String.length (short_switch_id sid) = 9%nat
      /\ substring 0 3 (short_switch_id sid) = substring 0 3 sid
      /\ substring 3 3 (short_switch_id sid) = "..."%string
      /\ substring 6 3 (short_switch_id sid)
         = substring (String.length sid - 3) 3 sid).
Proof.
  unfold short_switch_id.
  destruct (Nat.ltb_spec 20 (String.length sid)) as [H | H].
  - assert (Hp : String.length (substring 0 3 sid) = 3%nat)
      by (apply length_substring; lia).
    assert (Hq : String.length (substring (String.length sid - 3) 3 sid)
                 = 3%nat)
      by (apply length_substring; lia).
    set (p := substring 0 3 sid) in *.
    set (q := substring (String.length sid - 3) 3 sid) in *.
    split; [rewrite !length_append, Hp, Hq; simpl; lia |].
    split; [lia |]; intros _.
    split; [rewrite !length_append, Hp, Hq; reflexivity |].
    split; [rewrite <- Hp at 1; apply substring_head |].
    split.
    + rewrite <- Hp at 1.
      rewrite <- (Nat.add_0_r (String.length p)), substring_tail.
      exact (substring_head "..." q).
    + replace 6%nat with (String.length p + 3)%nat by (rewrite Hp; reflexivity).
      rewrite substring_tail.
      change 3%nat with (String.length "..." + 0)%nat at 1.
      rewrite substring_tail, <- Hq; apply substring_whole.
  - split; [assumption |]; split; [reflexivity | lia].
Qed.

(** ** What a run hands out *)

Lemma one_op_conserves (o : pool_op) (self : Interface) :
  Permutation
    (given o self ++ available_tags (run_op o self))
    (available_tags self ++ taken o self).
Proof.
  destruct o as [tag | | tag]; cbn [given taken run_op];
    rewrite ?app_nil_r.
  - rewrite use_tag_pool; unfold use_tag; rewrite find_equal_tag.
    destruct (list_contains tag (available_tags self)) eqn:E.
    + destruct (list_remove_present _ _ E) as [r Hr]; rewrite Hr.
      destruct (list_remove_split _ _ _ Hr) as (l1 & e & l2 & -> & -> & He & _).
      apply TAG_eq_true_iff in He; subst e; cbn [fst app].
      apply Permutation_middle.
    + rewrite (list_remove_absent _ _ E); reflexivity.
  - rewrite get_next_pool; unfold get_next_available_tag.
    destruct (list_pop (available_tags self)) as [[t r] |] eqn:E; cbn [fst].
    + apply list_pop_some in E; rewrite E, removelast_last.
      apply (Permutation_app_comm [t] r).
    + apply list_pop_none in E; rewrite E; reflexivity.
  - rewrite make_tag_available_pool; unfold is_tag_available.
    destruct (list_contains tag (available_tags self));
      [now rewrite app_nil_r | reflexivity].
Qed.

Lemma run_conserves (ops : list pool_op) (self : Interface) :
  Permutation
    (handed_out ops self ++ available_tags (run_ops ops self))
    (available_tags self ++ taken_back ops self).
Proof.
  revert self; induction ops as [| o ops IH]; intros self.
  - cbn [handed_out taken_back run_ops fold_left]; now rewrite app_nil_r.
  - change (run_ops (o :: ops) self) with (run_ops ops (run_op o self)).
    cbn [handed_out taken_back]; rewrite <- app_assoc.
    rewrite (Permutation_app_head (given o self) (IH (run_op o self))).
    rewrite !app_assoc; apply Permutation_app_tail, one_op_conserves.
Qed.

Lemma no_release_takes_nothing (ops : list pool_op) (self : Interface) :
  forallb (fun o => negb (is_release o)) ops = true ->
  taken_back ops self = [].
Proof.
  revert self; induction ops as [| o ops IH]; intros self; [reflexivity |].
  cbn [forallb]; rewrite andb_true_iff; intros [Ho H].
  cbn [taken_back]; rewrite (IH _ H).
  destruct o; [reflexivity | reflexivity | discriminate Ho].
Qed.

(** X19. Tags are neither lost nor made by the pool methods: after any
    run, the tags handed to callers together with the pool are, up to
    order, the pool before together with the tags that
    [make_tag_available] accepted.  So in a run without
    [make_tag_available] on a pool free of equal entries no tag is handed
    out twice, and every tag handed out was in the pool before. *)
Theorem tags_are_conserved (ops : list pool_op) (self : Interface) :
  Permutation
    (handed_out ops self ++ available_tags (run_ops ops self))
    (available_tags self ++ taken_back ops self)
  /\ (forallb (fun o => negb (is_release o)) ops = true ->
      no_equal_entries (available_tags self) ->
      NoDup (handed_out ops self)
      /\ (forall tag, In tag (handed_out ops self) ->
                      is_tag_available tag self = true
                      /\ is_tag_available tag (run_ops ops self) = false)).
Proof.
  split; [apply run_conserves |].
  intros Hr Hd; apply no_equal_entries_NoDup in Hd.
  pose proof (run_conserves ops self) as P.
  rewrite (no_release_takes_nothing _ _ Hr), app_nil_r in P.
  assert (Hnd : NoDup (handed_out ops self
                       ++ available_tags (run_ops ops self)))
    by (eapply Permutation_NoDup; [symmetry; exact P | exact Hd]).
  split; [exact (NoDup_app_remove_r _ _ Hnd) |].
  intros tag Hin; split.
  - apply list_contains_true_iff.
    eapply Permutation_in; [exact P | apply in_or_app; now left].
  - apply not_available; intros Hp.
    apply in_split in Hin; destruct Hin as (h1 & h2 & Eh).
    rewrite Eh, <- app_assoc in Hnd; cbn [app] in Hnd.
    apply NoDup_remove_2 in Hnd; apply Hnd.
    rewrite app_assoc; apply in_or_app; now right.
Qed.

Lemma tags_are_conserved_witness :
  NoDup (handed_out [Next; Use (mkTAG VLAN 7); Use (mkTAG VLAN 7); Next]
           (port2 sw_down None None))
  /\ handed_out [Next; Use (mkTAG VLAN 7); Use (mkTAG VLAN 7); Next]
       (port2 sw_down None None)
     = [mkTAG VLAN 4095; mkTAG VLAN 7; mkTAG VLAN 4094].
Proof.
  assert (Hd : no_equal_entries (available_tags (port2 sw_down None None))).
  { unfold port2; rewrite init_pool.
    apply no_equal_entries_NoDup, seeded_pool_NoDup. }
  split; [| vm_compute; reflexivity].
  exact (proj1 (proj2 (tags_are_conserved
                         [Next; Use (mkTAG VLAN 7); Use (mkTAG VLAN 7); Next]
                         _) eq_refl Hd)).
Defined.

(** ** The rendered record *)

Section Rendered.
Context {pfts01 : PortFeatures01.t} {pfts04 : PortFeatures04.t}.

(** X20. [as_dict] raises nothing and logs what [speed] logs.  Its keys
    are id, name, port_number, mac, switch, type, nni, uni, speed and
    metadata, in this order, followed by stats exactly when the Interface
    has stats; id is the Interface id, uni is the opposite of nni, type
    is the word interface, and speed is None exactly when [speed] returns
    None. *)
Theorem as_dict_has_fixed_keys (self : Interface) :
  exists d,
    as_dict self = (Ok d, snd (speed self))
    /\ map fst d
       = ["id"; "name"; "port_number"; "mac"; "switch"; "type"; "nni";
          "uni"; "speed"; "metadata"]%string
         ++ match stats self with
            | Some _ => ["stats"%string]
            | None => []
            end
    /\ dict_get d "id" = Some (VStr (Interface_id self))
    /\ dict_get d "type" = Some (VStr "interface")
    /\ dict_get d "nni" = Some (VBool (nni self))
    /\ dict_get d "uni" = Some (VBool (negb (nni self)))
    /\ dict_get d "stats" = option_map VDict (stats self)
    /\ (dict_get d "speed" = Some VNone <-> fst (speed self) = Ok None).
Proof.
  destruct (speed self) as [[r | e] l] eqn:Es.
  - unfold as_dict; rewrite Es; unfold bind.
    destruct (stats self) as [rendered |]; cbn [ret dict_set String.eqb];
      rewrite app_nil_r; eexists; (split; [reflexivity |]);
      cbn [map fst snd app dict_get String.eqb Ascii.eqb Bool.eqb
           option_map];
      repeat (split; [reflexivity |]);
      destruct r; cbn [opt_val]; split; congruence.
  - exfalso.
    destruct (speed_outcomes self) as [[v E] | E];
      rewrite Es in E; discriminate E.
Qed.

End Rendered.
